(** * Mail diagnostics and auto-updater of the Heavenly Drops AI manager

    A shallow embedding of [backend/src/emails/mail-diagnostics.service.ts]
    ([MailDiagnosticsService]), [backend/src/emails/auto-updater.service.ts]
    ([AutoUpdaterService]) and of the updater and diagnostics routes of
    [backend/src/emails/emails.controller.ts].

    The services talk to the outside (registries, the mail host, the
    database, the job queue, [execSync]).  What the outside answers is an
    input of the model: a record that gives, for every external call of one
    run, either its value or the message of the exception it throws.  The
    instance fields of the services, the two tables and the queue make up
    the [World], which the methods pass along; an exception leaves the
    world as it was when it was thrown. *)

From Stdlib Require Import String Ascii ZArith List Bool Lia DecimalString
  Permutation.
Import ListNotations.
Open Scope string_scope.
Open Scope Z_scope.

(** ** Exceptions and state *)

(** A JavaScript computation returns or throws an [Error] with a message. *)
Inductive Outcome (A : Type) : Type :=
| Ret (a : A)
| Throw (message : string).
Arguments Ret {A} a.
Arguments Throw {A} message.

(** An [async] method over a mutable state [S]. *)
Definition M (S A : Type) : Type := S -> Outcome A * S.

Definition ret {S A} (a : A) : M S A := fun s => (Ret a, s).

Definition throw {S A} (message : string) : M S A := fun s => (Throw message, s).

Definition bind {S A B} (m : M S A) (k : A -> M S B) : M S B :=
  fun s =>
    match m s with
    | (Ret a, s') => k a s'
    | (Throw e, s') => (Throw e, s')
    end.

Definition modify {S} (f : S -> S) : M S unit := fun s => (Ret tt, f s).

Definition gets {S A} (f : S -> A) : M S A := fun s => (Ret (f s), s).

(** [try { body } catch (err) { handler err.message }] *)
Definition try_catch {S A} (body : M S A) (handler : string -> M S A) : M S A :=
  fun s =>
    match body s with
    | (Ret a, s') => (Ret a, s')
    | (Throw e, s') => handler e s'
    end.

(** [try { body } finally { cleanup }]: the cleanup runs on every exit of
    the body, and the outcome of the body stands unless the cleanup throws. *)
Definition try_finally {S A} (body : M S A) (cleanup : M S unit) : M S A :=
  fun s =>
    match body s with
    | (r, s') =>
        match cleanup s' with
        | (Ret _, s'') => (r, s'')
        | (Throw e, s'') => (Throw e, s'')
        end
    end.

Declare Scope js_scope.
Delimit Scope js_scope with js.
Notation "x <- m ;; k" := (bind m (fun x => k))
  (at level 61, m at next level, right associativity) : js_scope.
Notation "m ;; k" := (bind m (fun _ => k))
  (at level 61, right associativity) : js_scope.
Open Scope js_scope.

(** ** Strings and numbers in template literals *)

Definition nl : string := String (ascii_of_nat 10) EmptyString.

Definition string_of_Z (z : Z) : string := NilZero.string_of_int (Z.to_int z).

(** [xs.join(sep)] *)
Definition join (sep : string) (xs : list string) : string := String.concat sep xs.

(** [a ?? b] on a value that may be [undefined] *)
Definition nullish {A} (a : option A) (b : A) : A :=
  match a with
  | Some x => x
  | None => b
  end.

(** [!s] on a string that may be [undefined]: the empty string is falsy too. *)
Definition falsy (s : option string) : bool :=
  match s with
  | None => true
  | Some x => String.eqb x ""
  end.

(** ** The result of a version check and what it is computed from *)

Record UpdateCheckResult : Type := {
  component : string;
  currentVersion : string;
  latestVersion : string;
  updateAvailable : bool
}.

(** What the registries and [node_modules] answer during one check phase.
    [dockerHub] is the parsed body of the tag query: [Throw] when [fetch] or
    [res.json()] rejects, [Ret None] when the body has no [results], else the
    names of the tags.  [npmLatest pkg] is the [version] field of the
    registry's [latest] document of [pkg] ([Ret None]: no such field), and
    [nodeModules pkg] the version in the installed [package.json] ([None]:
    [require] throws, the package is not installed). *)
Record Registry : Type := {
  dockerHub : Outcome (option (list string));
  npmLatest : string -> Outcome (option string);
  nodeModules : string -> option string
}.

(** ** The shared state *)

Inductive Status : Type := Ok | Warning | Error.

(** The string a status is in the source. *)
Definition status_string (s : Status) : string :=
  match s with
  | Ok => "ok"
  | Warning => "warning"
  | Error => "error"
  end.

Definition status_eqb (a b : Status) : bool :=
  match a, b with
  | Ok, Ok | Warning, Warning | Error, Error => true
  | _, _ => false
  end.

(** A value of a [details] object.  [JIsoDate t] stands for the string
    [new Date(t).toISOString()]. *)
Inductive JsVal : Type :=
| JStr (s : string)
| JNum (z : Z)
| JBool (b : bool)
| JIsoDate (t : Z).

Definition Details : Type := list (string * JsVal).

Record DiagnosticCheck : Type := {
  checkType : string;
  status : Status;
  details : Details;
  errorMsg : option string;
  durationMs : Z
}.

Record DiagnosticsReport : Type := {
  timestamp : Z;
  overall : Status;
  checks : list DiagnosticCheck;
  repairsAttempted : list string
}.

Record UpdateResult : Type := {
  ur_component : string;
  previousVersion : string;
  newVersion : string;
  success : bool;
  logOutput : string
}.

Inductive ProgressStatus : Type :=
| Idle | Checking | Installing | Repairing | Done | Failed.

Record Progress : Type := {
  p_status : ProgressStatus;
  p_message : string;
  p_progress : Z;
  p_component : option string
}.

(** A row of [mail_diagnostics] as [persistCheck] inserts it. *)
Record DiagnosticsRow : Type := {
  check_type : string;
  row_status : string;
  row_details : Details;
  error_msg : option string;
  duration_ms : Z
}.

(** A row of [update_history] as [saveUpdateHistory] inserts it. *)
Record HistoryRow : Type := {
  h_component : string;
  previous_version : string;
  new_version : string;
  h_status : string;
  log_output : string
}.

Inductive LogLevel : Type := LLog | LWarn | LError.

(** [maintenanceMode] is the field of [MailDiagnosticsService], [isUpdating]
    and [updateProgress] are those of [AutoUpdaterService], [queuePaused] is
    the state of the [email-processing] queue, the two lists are the tables
    (newest row last) and [logs] is what the two loggers wrote (newest
    last). *)
Record World : Type := {
  maintenanceMode : bool;
  queuePaused : bool;
  mail_diagnostics : list DiagnosticsRow;
  update_history : list HistoryRow;
  isUpdating : bool;
  updateProgress : Progress;
  logs : list (LogLevel * string)
}.

Definition set_maintenanceMode (b : bool) (w : World) : World :=
  {| maintenanceMode := b; queuePaused := queuePaused w;
     mail_diagnostics := mail_diagnostics w; update_history := update_history w;
     isUpdating := isUpdating w; updateProgress := updateProgress w;
     logs := logs w |}.

Definition set_queuePaused (b : bool) (w : World) : World :=
  {| maintenanceMode := maintenanceMode w; queuePaused := b;
     mail_diagnostics := mail_diagnostics w; update_history := update_history w;
     isUpdating := isUpdating w; updateProgress := updateProgress w;
     logs := logs w |}.

Definition add_diagnostics_row (r : DiagnosticsRow) (w : World) : World :=
  {| maintenanceMode := maintenanceMode w; queuePaused := queuePaused w;
     mail_diagnostics := mail_diagnostics w ++ [r];
     update_history := update_history w;
     isUpdating := isUpdating w; updateProgress := updateProgress w;
     logs := logs w |}.

Definition add_history_row (r : HistoryRow) (w : World) : World :=
  {| maintenanceMode := maintenanceMode w; queuePaused := queuePaused w;
     mail_diagnostics := mail_diagnostics w;
     update_history := update_history w ++ [r];
     isUpdating := isUpdating w; updateProgress := updateProgress w;
     logs := logs w |}.

Definition set_isUpdating (b : bool) (w : World) : World :=
  {| maintenanceMode := maintenanceMode w; queuePaused := queuePaused w;
     mail_diagnostics := mail_diagnostics w; update_history := update_history w;
     isUpdating := b; updateProgress := updateProgress w;
     logs := logs w |}.

Definition set_updateProgress (p : Progress) (w : World) : World :=
  {| maintenanceMode := maintenanceMode w; queuePaused := queuePaused w;
     mail_diagnostics := mail_diagnostics w; update_history := update_history w;
     isUpdating := isUpdating w; updateProgress := p;
     logs := logs w |}.

Definition add_log (l : LogLevel) (msg : string) (w : World) : World :=
  {| maintenanceMode := maintenanceMode w; queuePaused := queuePaused w;
     mail_diagnostics := mail_diagnostics w; update_history := update_history w;
     isUpdating := isUpdating w; updateProgress := updateProgress w;
     logs := logs w ++ [(l, msg)] |}.

(** [this.logger.log(msg)], [.warn(msg)], [.error(msg)] *)
Definition logger (l : LogLevel) (msg : string) : M World unit :=
  modify (add_log l msg).

(** The state of a service right after construction. *)
Definition initial_world : World :=
  {| maintenanceMode := false; queuePaused := false;
     mail_diagnostics := []; update_history := [];
     isUpdating := false;
     updateProgress := {| p_status := Idle; p_message := ""; p_progress := 0;
                          p_component := None |};
     logs := [] |}.

(** ** What the outside answers during one diagnostics run *)

(** [valid_to] is the time value (milliseconds) of [new Date(cert.valid_to)],
    [None] when that date is invalid; [subject_CN] is [cert.subject?.CN]. *)
Record PeerCertificate : Type := {
  valid_to : option Z;
  subject_CN : option string
}.

(** For a call that returns nothing, [Some msg] says that it throws [msg].
    The [*_elapsed] fields are [Date.now() - start] at the return of each
    check, [tls_now] is [Date.now()] where the days are computed. *)
Record Probes : Type := {
  config_string : string -> option string;
  config_number : string -> option Z;
  smtp_verify : option string;
  smtp_elapsed : Z;
  imap_connect : option string;
  imap_getBoxes : Outcome Z;
  imap_end : option string;
  imap_elapsed : Z;
  tls_connect : Outcome PeerCertificate;
  tls_now : Z;
  tls_elapsed : Z;
  http_get : Outcome Z;
  http_elapsed : Z;
  persist_query : DiagnosticCheck -> option string;
  previous_query : Outcome (list (string * string));
  report_time : Z;
  total_elapsed : Z
}.

(** The state of a promise after [Promise.allSettled]; the reason of a
    rejection may have no [message]. *)
Inductive PromiseSettledResult (A : Type) : Type :=
| Fulfilled (value : A)
| Rejected (reason_message : option string).
Arguments Fulfilled {A} value.
Arguments Rejected {A} reason_message.

(** An external call that returns nothing. *)
Definition call {S} (o : option string) : M S unit :=
  match o with
  | None => ret tt
  | Some msg => throw msg
  end.

(** An external call that returns a value. *)
Definition await {S A} (o : Outcome A) : M S A :=
  match o with
  | Ret a => ret a
  | Throw msg => throw msg
  end.

Fixpoint for_each {S A} (xs : list A) (f : A -> M S unit) : M S unit :=
  match xs with
  | [] => ret tt
  | x :: rest => f x ;; for_each rest f
  end.

(** A row of the query of [getLatestSummary], and the value it resolves
    to.  [summary_query] is the answer of the database, [summary_now] the
    value of [new Date()]. *)
Record SummaryRow : Type := {
  s_check_type : string;
  s_status : string;
  s_details : Details;
  s_error_msg : option string;
  s_duration_ms : Z;
  checked_at : Z
}.

Record SummaryInput : Type := {
  summary_query : Outcome (list SummaryRow);
  summary_now : Z
}.

Record LatestSummary : Type := {
  summary_status : string;
  lastChecked : Z;
  summary_checks : list SummaryRow
}.

Module MailDiagnosticsService.

Definition mail_host : string := "mail.workandstudyabroad.com.tr".

Definition checkSmtp (p : Probes) : DiagnosticCheck :=
  let host := nullish (config_string p "SMTP_HOST") mail_host in
  let port := nullish (config_number p "SMTP_PORT") 587 in
  let user := config_string p "SMTP_USER" in
  let pass := config_string p "SMTP_PASS" in
  if falsy user || falsy pass then
    {| checkType := "smtp_send";
       status := Warning;
       details := [("host", JStr host); ("port", JNum port);
                   ("configured", JBool false)];
       errorMsg := Some "SMTP credentials not configured";
       durationMs := smtp_elapsed p |}
  else
    match smtp_verify p with
    | None =>
        {| checkType := "smtp_send";
           status := Ok;
           details := [("host", JStr host); ("port", JNum port);
                       ("verified", JBool true)];
           errorMsg := None;
           durationMs := smtp_elapsed p |}
    | Some message =>
        {| checkType := "smtp_send";
           status := Error;
           details := [];
           errorMsg := Some message;
           durationMs := smtp_elapsed p |}
    end.

(** The three awaited calls of the IMAP session: the mailbox count, or
    the message of the first call that throws. *)
Definition imap_session (p : Probes) : Outcome Z :=
  match imap_connect p with
  | Some message => Throw message
  | None =>
      match imap_getBoxes p with
      | Throw message => Throw message
      | Ret mailboxCount =>
          match imap_end p with
          | Some message => Throw message
          | None => Ret mailboxCount
          end
      end
  end.

Definition checkImap (p : Probes) : DiagnosticCheck :=
  let host := nullish (config_string p "IMAP_HOST") mail_host in
  let port := nullish (config_number p "IMAP_PORT") 993 in
  let user := config_string p "IMAP_USER" in
  let pass := config_string p "IMAP_PASS" in
  if falsy user || falsy pass then
    {| checkType := "imap_login";
       status := Warning;
       details := [("host", JStr host); ("port", JNum port);
                   ("configured", JBool false)];
       errorMsg := Some "IMAP credentials not configured";
       durationMs := imap_elapsed p |}
  else
    match imap_session p with
    | Ret mailboxCount =>
        {| checkType := "imap_login";
           status := Ok;
           details := [("host", JStr host); ("port", JNum port);
                       ("mailboxCount", JNum mailboxCount)];
           errorMsg := None;
           durationMs := imap_elapsed p |}
    | Throw message =>
        {| checkType := "imap_login";
           status := Error;
           details := [];
           errorMsg := Some message;
           durationMs := imap_elapsed p |}
    end.

(** [Math.floor((expiryDate.getTime() - Date.now()) / (1000*60*60*24))];
    [Z.div] rounds down, as [Math.floor] does. *)
Definition daysUntilExpiry (expiry now : Z) : Z :=
  (expiry - now) / (1000 * 60 * 60 * 24).

Definition ssl_status (days : Z) : Status :=
  if days >? 14 then Ok else if days >? 7 then Warning else Error.

Definition checkSslCertificate (p : Probes) : DiagnosticCheck :=
  let host := nullish (config_string p "MAIL_HOST") mail_host in
  let failed message :=
    {| checkType := "ssl_cert";
       status := Error;
       details := [];
       errorMsg := Some message;
       durationMs := tls_elapsed p |} in
  match tls_connect p with
  | Throw message => failed message
  | Ret cert =>
      match valid_to cert with
      | None =>
          (* the days are NaN, and [expiryDate.toISOString()] throws *)
          failed "Invalid time value"
      | Some expiry =>
          let days := daysUntilExpiry expiry (tls_now p) in
          let subject := nullish (subject_CN cert) "unknown" in
          {| checkType := "ssl_cert";
             status := ssl_status days;
             details := [("host", JStr host); ("subject", JStr subject);
                         ("expiresAt", JIsoDate expiry);
                         ("daysUntilExpiry", JNum days)];
             errorMsg := None;
             durationMs := tls_elapsed p |}
      end
  end.

Definition checkRoundcubeHealth (p : Probes) : DiagnosticCheck :=
  let roundcubeUrl :=
    nullish (config_string p "ROUNDCUBE_INTERNAL_URL") "http://127.0.0.1:8080" in
  match http_get p with
  | Ret statusCode =>
      {| checkType := "roundcube_health";
         status := if statusCode =? 200 then Ok
                   else if statusCode <? 500 then Warning else Error;
         details := [("url", JStr roundcubeUrl); ("statusCode", JNum statusCode)];
         errorMsg := None;
         durationMs := http_elapsed p |}
  | Throw message =>
      {| checkType := "roundcube_health";
         status := Error;
         details := [];
         errorMsg := Some message;
         durationMs := http_elapsed p |}
  end.

(** The [unwrap] of [runFullDiagnostics]. *)
Definition unwrap (r : PromiseSettledResult DiagnosticCheck) : DiagnosticCheck :=
  match r with
  | Fulfilled value => value
  | Rejected reason_message =>
      {| checkType := "unknown";
         status := Error;
         details := [];
         errorMsg := Some (nullish reason_message "Promise rejected");
         durationMs := 0 |}
  end.

Definition attemptRepair (check : DiagnosticCheck) : M World (option string) :=
  logger LWarn ("Attempting auto-repair for failed check: " ++ checkType check) ;;
  if String.eqb (checkType check) "smtp_send" then
    ret (Some "smtp-transporter-reinitialised")
  else if String.eqb (checkType check) "imap_login" then
    ret (Some "imap-connection-pool-reset")
  else if String.eqb (checkType check) "ssl_cert" then
    logger LError "SSL certificate issue – manual certbot renewal may be required" ;;
    ret (Some "ssl-alert-logged")
  else if String.eqb (checkType check) "roundcube_health" then
    ret (Some "roundcube-container-auto-restart-pending")
  else
    ret None.

Definition persistCheck (p : Probes) (check : DiagnosticCheck) : M World unit :=
  try_catch
    (call (persist_query p check) ;;
     modify (add_diagnostics_row
               {| check_type := checkType check;
                  row_status := status_string (status check);
                  row_details := details check;
                  error_msg := errorMsg check;
                  duration_ms := durationMs check |}))
    (fun message => logger LError ("Failed to persist diagnostic check: " ++ message)).

(** [Object.fromEntries(prev.map(...))[key]]: of two rows with one key the
    later one stays. *)
Fixpoint prevMap (prev : list (string * string)) (key : string) : option string :=
  match prev with
  | [] => None
  | (k, v) :: rest =>
      match prevMap rest key with
      | Some later => Some later
      | None => if String.eqb k key then Some v else None
      end
  end.

Fixpoint diffLines (prev : list (string * string)) (after : list DiagnosticCheck)
  : list string :=
  match after with
  | [] => []
  | check :: rest =>
      let before := nullish (prevMap prev (checkType check)) "unknown" in
      if negb (String.eqb before (status_string (status check))) then
        ("  [" ++ checkType check ++ "] " ++ before ++ " → "
           ++ status_string (status check)) :: diffLines prev rest
      else diffLines prev rest
  end.

Definition logBeforeAfterReport (p : Probes) (after : DiagnosticsReport)
  : M World unit :=
  prev <- await (previous_query p) ;;
  let lines := diffLines prev (checks after) in
  if (length lines =? 0)%nat then
    logger LLog "Before/After: No status changes detected"
  else
    logger LLog ("Before/After diff:" ++ nl ++ join nl lines).

(** The auto-repair loop over the checks: the tags that were pushed. *)
Fixpoint repairFailed (checks : list DiagnosticCheck) : M World (list string) :=
  match checks with
  | [] => ret []
  | check :: rest =>
      match status check with
      | Error =>
          repairResult <- attemptRepair check ;;
          pushed <- repairFailed rest ;;
          ret (match repairResult with
               | Some tag => if String.eqb tag "" then pushed else tag :: pushed
               | None => pushed
               end)
      | _ => repairFailed rest
      end
  end.

Definition overall_of (checks : list DiagnosticCheck) : Status :=
  if existsb (fun c => status_eqb (status c) Error) checks then Error
  else if existsb (fun c => status_eqb (status c) Warning) checks then Warning
  else Ok.

(** [runFullDiagnostics] from the point where the four promises have
    settled. *)
Definition diagnose (beforeAfter : bool) (p : Probes)
    (smtp imap ssl roundcube : PromiseSettledResult DiagnosticCheck)
  : M World DiagnosticsReport :=
  let checks := [unwrap smtp; unwrap imap; unwrap ssl; unwrap roundcube] in
  repairsAttempted <- repairFailed checks ;;
  let overall := overall_of checks in
  let report :=
    {| timestamp := report_time p;
       overall := overall;
       checks := checks;
       repairsAttempted := repairsAttempted |} in
  for_each checks (persistCheck p) ;;
  logger LLog ("Diagnostics complete in " ++ string_of_Z (total_elapsed p)
                 ++ "ms – overall: " ++ status_string overall) ;;
  (if beforeAfter then logBeforeAfterReport p report else ret tt) ;;
  ret report.

(** Each check catches what it throws, so its promise is fulfilled. *)
Definition runFullDiagnostics (beforeAfter : bool) (p : Probes)
  : M World DiagnosticsReport :=
  logger LLog "Starting full mail diagnostics..." ;;
  diagnose beforeAfter p
    (Fulfilled (checkSmtp p)) (Fulfilled (checkImap p))
    (Fulfilled (checkSslCertificate p)) (Fulfilled (checkRoundcubeHealth p)).

Definition enterMaintenanceMode : M World unit :=
  modify (set_maintenanceMode true) ;;
  logger LLog "Mail diagnostics paused – maintenance mode ON".

Definition exitMaintenanceMode : M World unit :=
  modify (set_maintenanceMode false) ;;
  logger LLog "Mail diagnostics resumed – maintenance mode OFF".

Definition isInMaintenanceMode : M World bool := gets maintenanceMode.

Definition runScheduledDiagnostics (p : Probes) : M World unit :=
  inMaintenance <- gets maintenanceMode ;;
  if inMaintenance then
    logger LLog "Skipping diagnostics – maintenance mode active"
  else
    runFullDiagnostics false p ;; ret tt.

(** Summary for the dashboard (lines 599-618). *)
Definition getLatestSummary (q : SummaryInput) : M World LatestSummary :=
  rows <- await (summary_query q) ;;
  let overall :=
    if existsb (fun r => String.eqb (s_status r) "error") rows then "error"
    else if existsb (fun r => String.eqb (s_status r) "warning") rows then "warning"
    else "ok" in
  ret {| summary_status := overall;
         lastChecked := nullish (option_map checked_at (hd_error rows)) (summary_now q);
         summary_checks := rows |}.

End MailDiagnosticsService.

(** ** What the outside answers during one update cycle *)

(** [queue_pause] is the call of [emailQueue.pause()]; [emailQueue.resume()]
    is called after the installs and once more in the [catch] block.
    [execSync cmd] is the output of the command or the exception of a failed
    or timed-out command; [history_query r] is the insert of the row of [r].
    [diagnostics_first] answers the run with the before/after comparison and
    [diagnostics_rerun k] the re-run of repair attempt [k]. *)
Record UpdaterInput : Type := {
  registry : Registry;
  queue_pause : option string;
  queue_resume_after_install : option string;
  queue_resume_in_catch : option string;
  execSync : string -> Outcome string;
  history_query : UpdateResult -> option string;
  diagnostics_first : Probes;
  diagnostics_rerun : Z -> Probes
}.

(** The value [checkAndInstallAll] resolves to. *)
Record CycleResult : Type := {
  results : list UpdateResult;
  diagnosticsStatus : string
}.

(** The local array [results] of one call next to the shared state. *)
Record Frame : Type := {
  f_results : list UpdateResult;
  world : World
}.

Definition inWorld {A} (m : M World A) : M Frame A :=
  fun f =>
    match m (world f) with
    | (r, w) => (r, {| f_results := f_results f; world := w |})
    end.

Definition push_result (r : UpdateResult) : M Frame unit :=
  modify (fun f => {| f_results := f_results f ++ [r]; world := world f |}).

(** Runs a block that owns a fresh [results] array. *)
Definition with_results {A} (m : M Frame A) : M World A :=
  fun w =>
    match m {| f_results := []; world := w |} with
    | (r, f) => (r, world f)
    end.

Module AutoUpdaterService.

(** Version checks (lines 145-201 of the service). *)

Definition is_digit (c : ascii) : bool :=
  let n := Z.of_nat (nat_of_ascii c) in (48 <=? n) && (n <=? 57).

Fixpoint skip_digits (s : string) : string :=
  match s with
  | String c r => if is_digit c then skip_digits r else s
  | EmptyString => s
  end.

(** [\d+] at the head of [s]: the rest after the longest run of digits. *)
Definition digits1 (s : string) : option string :=
  match s with
  | String c r => if is_digit c then Some (skip_digits r) else None
  | EmptyString => None
  end.

(** [t.match(/^\d+\.\d+-apache$/)] is not [null]. *)
Definition matches_apache_tag (t : string) : bool :=
  match digits1 t with
  | Some (String c r) =>
      if Ascii.eqb c "."%char then
        match digits1 r with
        | Some rest => String.eqb rest "-apache"
        | None => false
        end
      else false
  | _ => false
  end.

Definition checkRoundcube (reg : Registry) : UpdateCheckResult :=
  match dockerHub reg with
  | Ret data =>
      let tags := nullish data [] in
      let latest := nullish (find matches_apache_tag tags) "unknown" in
      let current := "1.6-apache" in
      {| component := "roundcube";
         currentVersion := current;
         latestVersion := latest;
         updateAvailable := negb (String.eqb current latest) |}
  | Throw _ =>
      {| component := "roundcube";
         currentVersion := "unknown";
         latestVersion := "unknown";
         updateAvailable := false |}
  end.

Definition checkNpmPackage (reg : Registry) (packageName comp : string)
  : UpdateCheckResult :=
  match npmLatest reg packageName with
  | Ret version =>
      let latest := nullish version "unknown" in
      let current := nullish (nodeModules reg packageName) "unknown" in
      {| component := comp;
         currentVersion := current;
         latestVersion := latest;
         updateAvailable := negb (String.eqb current "unknown") && negb (String.eqb current latest) |}
  | Throw _ =>
      {| component := comp;
         currentVersion := "unknown";
         latestVersion := "unknown";
         updateAvailable := false |}
  end.

(** [Promise.all] of four checks none of which rejects. *)
Definition checkAll (reg : Registry) : list UpdateCheckResult :=
  [ checkRoundcube reg;
    checkNpmPackage reg "@whiskeysockets/baileys" "whatsapp-api";
    checkNpmPackage reg "instagram-private-api" "instagram-api";
    checkNpmPackage reg "@nestjs/core" "nestjs-core" ].


Definition setProgress (st : ProgressStatus) (message : string) (progress : Z)
    (comp : option string) : M World unit :=
  modify (set_updateProgress
            {| p_status := st; p_message := message; p_progress := progress;
               p_component := comp |}) ;;
  logger LLog ("[Updater] " ++ message ++ " (" ++ string_of_Z progress ++ "%)").

Definition getProgress : M World Progress := gets updateProgress.

(** [execSafe] turns the exception of [execSync] into its output. *)
Definition execSafe (inp : UpdaterInput) (cmd : string) : Outcome string :=
  match execSync inp cmd with
  | Ret out => Ret out
  | Throw message => Ret ("EXEC ERROR: " ++ message)
  end.

(** The [try] block of [installUpdate] over its local [logOutput]. *)
Definition installCommands (inp : UpdaterInput) (check : UpdateCheckResult)
  : M string unit :=
  if String.eqb (component check) "roundcube" then
    out <- await (execSafe inp ("docker pull roundcube/roundcubemail:"
                                  ++ latestVersion check)) ;;
    modify (fun _ => out) ;;
    up <- await (execSafe inp
                   "docker compose -f /app/email-server/docker-compose.mail.yml up -d roundcube") ;;
    modify (fun logOutput => logOutput ++ nl ++ up)
  else
    let pkgName :=
      if String.eqb (component check) "whatsapp-api" then "@whiskeysockets/baileys"
      else if String.eqb (component check) "instagram-api" then "instagram-private-api"
      else component check in
    out <- await (execSafe inp ("npm install " ++ pkgName ++ "@" ++ latestVersion check
                                  ++ " --save --prefix /app")) ;;
    modify (fun _ => out).

Definition installUpdate (inp : UpdaterInput) (check : UpdateCheckResult)
  : UpdateResult :=
  match installCommands inp check "" with
  | (Ret _, logOutput) =>
      {| ur_component := component check;
         previousVersion := currentVersion check;
         newVersion := latestVersion check;
         success := true;
         logOutput := logOutput |}
  | (Throw message, logOutput) =>
      {| ur_component := component check;
         previousVersion := currentVersion check;
         newVersion := latestVersion check;
         success := false;
         logOutput := logOutput ++ nl ++ "ERROR: " ++ message |}
  end.

Definition enterMaintenanceMode (inp : UpdaterInput) : M World unit :=
  MailDiagnosticsService.enterMaintenanceMode ;;
  call (queue_pause inp) ;;
  modify (set_queuePaused true) ;;
  logger LLog "Maintenance mode ON – queues paused".

(** [resume] is the outcome of this call's [emailQueue.resume()]. *)
Definition exitMaintenanceMode (resume : option string) : M World unit :=
  call resume ;;
  modify (set_queuePaused false) ;;
  MailDiagnosticsService.exitMaintenanceMode ;;
  logger LLog "Maintenance mode OFF – queues resumed".

(** The parameters of the insert into [update_history]. *)
Definition history_row (result : UpdateResult) : HistoryRow :=
  {| h_component := ur_component result;
     previous_version := previousVersion result;
     new_version := newVersion result;
     h_status := if success result then "success" else "failed";
     log_output := logOutput result |}.

Definition saveUpdateHistory (inp : UpdaterInput) (result : UpdateResult)
  : M World unit :=
  try_catch
    (call (history_query inp result) ;;
     modify (add_history_row (history_row result)))
    (fun message => logger LError ("Failed to save update history: " ++ message)).

(** Phase 3, the [for] loop over [pending]. *)
Fixpoint installPending (inp : UpdaterInput) (pending : list UpdateCheckResult)
    (progressStep : Z) : M Frame unit :=
  match pending with
  | [] => ret tt
  | check :: rest =>
      inWorld (setProgress Installing ("Installing " ++ component check ++ "…")
                 progressStep (Some (component check))) ;;
      let result := installUpdate inp check in
      push_result result ;;
      inWorld (saveUpdateHistory inp result) ;;
      installPending inp rest (Z.min (progressStep + 20) 80)
  end.

(** The [while] loop of phase 4 with its two local variables, which it
    returns as they are when the loop is left; the pause of five seconds
    changes nothing of the state.  The loop runs at most three times:
    [fuel] bounds the recursion, and three is enough (see
    [repairLoop_run]). *)
Fixpoint repairLoop (fuel : nat) (inp : UpdaterInput) (repairAttempts : Z)
    (diagnosticsReport : DiagnosticsReport)
  : M World (DiagnosticsReport * Z) :=
  if status_eqb (overall diagnosticsReport) Error && (repairAttempts <? 3) then
    match fuel with
    | O => ret (diagnosticsReport, repairAttempts)
    | S fuel' =>
        let repairAttempts := repairAttempts + 1 in
        setProgress Repairing
          ("Auto-repair attempt " ++ string_of_Z repairAttempts ++ "/3…")
          (85 + repairAttempts * 4) None ;;
        next <- MailDiagnosticsService.runFullDiagnostics false
                  (diagnostics_rerun inp repairAttempts) ;;
        repairLoop fuel' inp repairAttempts next
    end
  else ret (diagnosticsReport, repairAttempts).

Definition returned (diagnosticsStatus : string) : M Frame CycleResult :=
  rs <- gets f_results ;;
  ret {| results := rs; diagnosticsStatus := diagnosticsStatus |}.

(** The [try] block of [checkAndInstallAll]. *)
Definition cycle (inp : UpdaterInput) : M Frame CycleResult :=
  inWorld (setProgress Checking "Checking for available updates…" 5 None) ;;
  let checks := checkAll (registry inp) in
  let pending := filter updateAvailable checks in
  if (length pending =? 0)%nat then
    inWorld (setProgress Done "All components are up to date." 100 None) ;;
    returned "ok"
  else
    inWorld (setProgress Installing
               ("Updates available for: " ++ join ", " (map component pending))
               10 None) ;;
    inWorld (enterMaintenanceMode inp) ;;
    installPending inp pending 15 ;;
    inWorld (setProgress Repairing "Running post-update diagnostics…" 85 None) ;;
    inWorld (exitMaintenanceMode (queue_resume_after_install inp)) ;;
    first <- inWorld (MailDiagnosticsService.runFullDiagnostics true
                        (diagnostics_first inp)) ;;
    after_loop <- inWorld (repairLoop 3 inp 0 first) ;;
    let diagnosticsReport := fst after_loop in
    let finalStatus := overall diagnosticsReport in
    inWorld (setProgress
               (if status_eqb finalStatus Ok then Done else Failed)
               (if status_eqb finalStatus Ok
                then "All updates installed and system is stable."
                else "Updates installed but some checks still failing – manual review needed.")
               100 None) ;;
    returned (status_string finalStatus).

(** The [catch] block of [checkAndInstallAll]. *)
Definition cycle_failed (inp : UpdaterInput) (message : string)
  : M Frame CycleResult :=
  inWorld (logger LError ("Auto-updater failed: " ++ message)) ;;
  inWorld (setProgress Failed ("Update failed: " ++ message) 100 None) ;;
  inWorld (exitMaintenanceMode (queue_resume_in_catch inp)) ;;
  returned "error".

Definition checkAndInstallAll (inp : UpdaterInput) : M World CycleResult :=
  busy <- gets isUpdating ;;
  if busy then
    ret {| results := []; diagnosticsStatus := "update-already-in-progress" |}
  else
    modify (set_isUpdating true) ;;
    with_results
      (try_finally
         (try_catch (cycle inp) (cycle_failed inp))
         (inWorld (modify (set_isUpdating false)))).

Definition runScheduledUpdate (inp : UpdaterInput) : M World unit :=
  checkAndInstallAll inp ;; ret tt.

End AutoUpdaterService.

Module EmailsController.

(** The body of the answer of [POST /emails/updater/run]. *)
Record RunUpdaterResponse : Type := {
  message : string;
  status : string
}.

(** The promise of [checkAndInstallAll] is neither awaited nor looked at:
    whatever it settles to, value or exception, is dropped.  The world of
    the result is the one in which that cycle has settled. *)
Definition runUpdater (inp : UpdaterInput) : M World RunUpdaterResponse :=
  fun w =>
    match AutoUpdaterService.checkAndInstallAll inp w with
    | (_, w') =>
        (Ret {| message := "Update check started"; status := "accepted" |}, w')
    end.

Definition getUpdaterStatus : M World Progress := AutoUpdaterService.getProgress.

Definition runDiagnostics (beforeAfter : option bool) (p : Probes)
  : M World DiagnosticsReport :=
  MailDiagnosticsService.runFullDiagnostics (nullish beforeAfter false) p.

End EmailsController.

(** ** Derived notions used in the statements *)

(** The results of the four checks in the order of the array that
    [runFullDiagnostics] hands to [Promise.allSettled]. *)
Definition registered_checks (p : Probes) : list DiagnosticCheck :=
  [ MailDiagnosticsService.checkSmtp p;
    MailDiagnosticsService.checkImap p;
    MailDiagnosticsService.checkSslCertificate p;
    MailDiagnosticsService.checkRoundcubeHealth p ].

(** The overall status that a diagnostics run on [p] computes. *)
Definition probed_overall (p : Probes) : Status :=
  MailDiagnosticsService.overall_of (registered_checks p).

(** The part of the world that the diagnostics service leaves alone. *)
Definition updater_view (w : World)
  : bool * bool * list HistoryRow * bool * Progress :=
  (maintenanceMode w, queuePaused w, update_history w, isUpdating w,
   updateProgress w).

(** The part of the world that the repair loop leaves alone. *)
Definition settled_view (w : World) : bool * bool * list HistoryRow * bool :=
  (maintenanceMode w, queuePaused w, update_history w, isUpdating w).

(** The part of the world that the install loop leaves alone. *)
Definition maintenance_view (w : World) : bool * bool * bool :=
  (maintenanceMode w, queuePaused w, isUpdating w).

(** The results whose row reaches [update_history]. *)
Definition saved (inp : UpdaterInput) (r : UpdateResult) : bool :=
  match history_query inp r with
  | None => true
  | Some _ => false
  end.

(** The components with a pending update, in the order of [checkAll]. *)
Definition pending_of (inp : UpdaterInput) : list UpdateCheckResult :=
  filter updateAvailable (AutoUpdaterService.checkAll (registry inp)).

(** The probes of the diagnostics run number [k] of a cycle: run 0 is the
    one with the comparison, run [k] the re-run of repair attempt [k]. *)
Definition probes_of_run (inp : UpdaterInput) (k : Z) : Probes :=
  if k =? 0 then diagnostics_first inp else diagnostics_rerun inp k.

(** The credentials branch of the SMTP and IMAP checks. *)
Definition credentials_warning (c : DiagnosticCheck) : Prop :=
  status c = Warning /\
  (checkType c = "smtp_send" \/ checkType c = "imap_login").

(** The [catch] branch of a check: error, and the details are empty. *)
Definition caught_error (c : DiagnosticCheck) : Prop :=
  status c = Error /\ details c = [].

(** ** Concrete inputs *)

Definition configured (key : string) : option string :=
  if String.eqb key "SMTP_USER" then Some "ai@workandstudyabroad.com.tr"
  else if String.eqb key "SMTP_PASS" then Some "secret"
  else if String.eqb key "IMAP_USER" then Some "ai@workandstudyabroad.com.tr"
  else if String.eqb key "IMAP_PASS" then Some "secret"
  else None.

Definition day_ms : Z := 1000 * 60 * 60 * 24.

(** Every probe succeeds; the certificate expires [days] days after the
    check. *)
Definition probes_with_cert_days (days : Z) : Probes :=
  {| config_string := configured;
     config_number := fun _ => None;
     smtp_verify := None;
     smtp_elapsed := 40;
     imap_connect := None;
     imap_getBoxes := Ret 5;
     imap_end := None;
     imap_elapsed := 55;
     tls_connect := Ret {| valid_to := Some (1700000000000 + days * day_ms);
                           subject_CN := Some "mail.workandstudyabroad.com.tr" |};
     tls_now := 1700000000000;
     tls_elapsed := 30;
     http_get := Ret 200;
     http_elapsed := 8;
     persist_query := fun _ => None;
     previous_query := Ret [];
     report_time := 1700000000100;
     total_elapsed := 60 |}.

Definition healthy_probes : Probes := probes_with_cert_days 60.

(** As [healthy_probes], but no SMTP credentials are configured. *)
Definition probes_without_smtp_credentials : Probes :=
  {| config_string := fun key =>
                        if String.eqb key "SMTP_USER" then None else configured key;
     config_number := fun _ => None;
     smtp_verify := None;
     smtp_elapsed := 1;
     imap_connect := None;
     imap_getBoxes := Ret 5;
     imap_end := None;
     imap_elapsed := 55;
     tls_connect := tls_connect healthy_probes;
     tls_now := tls_now healthy_probes;
     tls_elapsed := 30;
     http_get := Ret 200;
     http_elapsed := 8;
     persist_query := fun _ => None;
     previous_query := Ret [];
     report_time := 1700000000100;
     total_elapsed := 60 |}.

(** As [healthy_probes], but the database is down: every query rejects. *)
Definition probes_database_down : Probes :=
  {| config_string := configured;
     config_number := fun _ => None;
     smtp_verify := None;
     smtp_elapsed := 40;
     imap_connect := None;
     imap_getBoxes := Ret 5;
     imap_end := None;
     imap_elapsed := 55;
     tls_connect := tls_connect healthy_probes;
     tls_now := tls_now healthy_probes;
     tls_elapsed := 30;
     http_get := Ret 200;
     http_elapsed := 8;
     persist_query := fun _ => Some "connect ECONNREFUSED 127.0.0.1:5432";
     previous_query := Throw "connect ECONNREFUSED 127.0.0.1:5432";
     report_time := 1700000000100;
     total_elapsed := 60 |}.

(** Docker Hub lists a newer Roundcube tag; the npm registry is not
    reachable. *)
Definition registry_roundcube_update : Registry :=
  {| dockerHub := Ret (Some ["latest"; "1.7-apache"; "1.6-apache"]);
     npmLatest := fun _ => Throw "fetch failed";
     nodeModules := fun _ => None |}.

(** Docker Hub answers with tags none of which has the form [N.N-apache];
    the npm registry answers with documents without a [version] (as for an
    unknown package) while the packages are installed. *)
Definition registry_unresolved_latest : Registry :=
  {| dockerHub := Ret (Some ["latest"; "1.6.x-fpm"]);
     npmLatest := fun _ => Ret None;
     nodeModules := fun _ => Some "10.3.0" |}.

(** One Roundcube update, every external call succeeds. *)
Definition smooth_update : UpdaterInput :=
  {| registry := registry_roundcube_update;
     queue_pause := None;
     queue_resume_after_install := None;
     queue_resume_in_catch := None;
     execSync := fun _ => Ret "done";
     history_query := fun _ => None;
     diagnostics_first := healthy_probes;
     diagnostics_rerun := fun _ => healthy_probes |}.

(** As [smooth_update], but the diagnostics after the update end with a
    warning: the SMTP credentials are not configured. *)
Definition update_then_warning : UpdaterInput :=
  {| registry := registry_roundcube_update;
     queue_pause := None;
     queue_resume_after_install := None;
     queue_resume_in_catch := None;
     execSync := fun _ => Ret "done";
     history_query := fun _ => None;
     diagnostics_first := probes_without_smtp_credentials;
     diagnostics_rerun := fun _ => probes_without_smtp_credentials |}.

(** As [smooth_update], but every command of the install step fails. *)
Definition update_with_failing_commands : UpdaterInput :=
  {| registry := registry_roundcube_update;
     queue_pause := None;
     queue_resume_after_install := None;
     queue_resume_in_catch := None;
     execSync := fun _ => Throw "Command failed: exit code 1";
     history_query := fun _ => None;
     diagnostics_first := healthy_probes;
     diagnostics_rerun := fun _ => healthy_probes |}.

(** As [smooth_update], but the queue cannot be resumed: Redis is gone. *)
Definition update_with_queue_down : UpdaterInput :=
  {| registry := registry_roundcube_update;
     queue_pause := None;
     queue_resume_after_install := Some "Connection is closed.";
     queue_resume_in_catch := Some "Connection is closed.";
     execSync := fun _ => Ret "done";
     history_query := fun _ => None;
     diagnostics_first := healthy_probes;
     diagnostics_rerun := fun _ => healthy_probes |}.

(** A world in which a cycle is in flight. *)
Definition busy_world : World :=
  {| maintenanceMode := true; queuePaused := true;
     mail_diagnostics := []; update_history := [];
     isUpdating := true;
     updateProgress := {| p_status := Installing;
                          p_message := "Installing roundcube…";
                          p_progress := 15;
                          p_component := Some "roundcube" |};
     logs := [] |}.

(** ** Derived notions for the further properties *)

(** The row that [persistCheck] inserts for a check. *)
Definition diagnostics_row (c : DiagnosticCheck) : DiagnosticsRow :=
  {| check_type := checkType c;
     row_status := status_string (status c);
     row_details := details c;
     error_msg := errorMsg c;
     duration_ms := durationMs c |}.

(** The checks whose insert into [mail_diagnostics] goes through. *)
Definition persisted (p : Probes) (c : DiagnosticCheck) : bool :=
  match persist_query p c with
  | None => true
  | Some _ => false
  end.

Definition is_error (c : DiagnosticCheck) : bool := status_eqb (status c) Error.

Definition is_warning (c : DiagnosticCheck) : bool := status_eqb (status c) Warning.

(** The tag that [attemptRepair] returns for a check type. *)
Definition repair_tag (checkType : string) : option string :=
  if String.eqb checkType "smtp_send" then Some "smtp-transporter-reinitialised"
  else if String.eqb checkType "imap_login" then Some "imap-connection-pool-reset"
  else if String.eqb checkType "ssl_cert" then Some "ssl-alert-logged"
  else if String.eqb checkType "roundcube_health"
       then Some "roundcube-container-auto-restart-pending"
  else None.

(** The tags of the failed checks, in the order of the checks. *)
Fixpoint repair_tags (cs : list DiagnosticCheck) : list string :=
  match cs with
  | [] => []
  | c :: rest =>
      if is_error c then
        match repair_tag (checkType c) with
        | Some tag => tag :: repair_tags rest
        | None => repair_tags rest
        end
      else repair_tags rest
  end.

(** The part of the world that a diagnostics run works on. *)
Definition diagnostics_view (w : World) : list DiagnosticsRow * list (LogLevel * string) :=
  (mail_diagnostics w, logs w).

(** A string of decimal digits, and a non-empty one. *)
Fixpoint all_digits (s : string) : bool :=
  match s with
  | EmptyString => true
  | String c r => AutoUpdaterService.is_digit c && all_digits r
  end.

Definition number (s : string) : Prop := s <> "" /\ all_digits s = true.

(** The results of the install loop of a cycle, and the rows that it adds
    to [update_history]. *)
Definition install_results (inp : UpdaterInput) : list UpdateResult :=
  map (AutoUpdaterService.installUpdate inp) (pending_of inp).

Definition installed_rows (inp : UpdaterInput) : list HistoryRow :=
  map AutoUpdaterService.history_row (filter (saved inp) (install_results inp)).

(** The value of a rejected call of [checkAndInstallAll]. *)
Definition rejection : CycleResult :=
  {| results := []; diagnosticsStatus := "update-already-in-progress" |}.

(** A string that does not begin with a decimal digit. *)
Definition starts_without_digit (s : string) : Prop :=
  match s with
  | EmptyString => True
  | String c _ => AutoUpdaterService.is_digit c = false
  end.

(** ** Further concrete inputs *)

(** No registry can be reached: nothing is pending. *)
Definition registry_unreachable : Registry :=
  {| dockerHub := Throw "fetch failed";
     npmLatest := fun _ => Throw "fetch failed";
     nodeModules := fun _ => Some "10.3.0" |}.

Definition nothing_to_update : UpdaterInput :=
  {| registry := registry_unreachable;
     queue_pause := None;
     queue_resume_after_install := None;
     queue_resume_in_catch := None;
     execSync := fun _ => Ret "done";
     history_query := fun _ => None;
     diagnostics_first := healthy_probes;
     diagnostics_rerun := fun _ => healthy_probes |}.

(** As [smooth_update], but the queue cannot be paused; it can be resumed. *)
Definition update_with_failing_pause : UpdaterInput :=
  {| registry := registry_roundcube_update;
     queue_pause := Some "Connection is closed.";
     queue_resume_after_install := None;
     queue_resume_in_catch := None;
     execSync := fun _ => Ret "done";
     history_query := fun _ => None;
     diagnostics_first := healthy_probes;
     diagnostics_rerun := fun _ => healthy_probes |}.

(** ** Derived notions for counting the diagnostics runs *)

(** The line that [runFullDiagnostics] logs when it starts. *)
Definition is_start (line : LogLevel * string) : bool :=
  match line with
  | (LLog, message) => String.eqb message "Starting full mail diagnostics..."
  | _ => false
  end.

(** The number of diagnostics runs that the log shows. *)
Definition diagnostics_started (w : World) : nat :=
  length (filter is_start (logs w)).

(** The rows that a diagnostics run on [p] adds to [mail_diagnostics]. *)
Definition run_rows (p : Probes) : list DiagnosticsRow :=
  map diagnostics_row (filter (persisted p) (registered_checks p)).

(** The rows of the [n] re-runs of the repair attempts [k], [k + 1], ... *)
Fixpoint rerun_rows (inp : UpdaterInput) (k : Z) (n : nat) : list DiagnosticsRow :=
  match n with
  | O => []
  | S n' => run_rows (diagnostics_rerun inp k) ++ rerun_rows inp (k + 1) n'
  end.

(** A settled promise of the check with the type [checkType]: fulfilled
    with a result of that type, or rejected. *)
Definition settles_as (s : PromiseSettledResult DiagnosticCheck) (type : string)
  : Prop :=
  match s with
  | Fulfilled value => checkType value = type
  | Rejected _ => True
  end.

(** The repair of a settled promise: [tag] when it is fulfilled with a
    result in error, nothing otherwise. *)
Definition settled_repair (s : PromiseSettledResult DiagnosticCheck) (tag : string)
  : list string :=
  match s with
  | Fulfilled value => if is_error value then [tag] else []
  | Rejected _ => []
  end.

(** * Properties *)

(** ** Version checks *)

Import AutoUpdaterService.

Lemma checkRoundcube_fetch_failure reg message :
  dockerHub reg = Throw message ->
  checkRoundcube reg =
    {| component := "roundcube"; currentVersion := "unknown";
       latestVersion := "unknown"; updateAvailable := false |}.
Proof. intros H. unfold checkRoundcube. now rewrite H. Qed.

Lemma checkNpmPackage_fetch_failure reg pkg comp message :
  npmLatest reg pkg = Throw message ->
  checkNpmPackage reg pkg comp =
    {| component := comp; currentVersion := "unknown";
       latestVersion := "unknown"; updateAvailable := false |}.
Proof. intros H. unfold checkNpmPackage. now rewrite H. Qed.

(** The guard that [checkNpmPackage] does have: an unresolved current
    version never yields an update. *)
Lemma checkNpmPackage_unknown_current reg pkg comp :
  currentVersion (checkNpmPackage reg pkg comp) = "unknown" ->
  updateAvailable (checkNpmPackage reg pkg comp) = false.
Proof.
  unfold checkNpmPackage. destruct (npmLatest reg pkg) as [version|]; cbn.
  - intros ->. reflexivity.
  - reflexivity.
Qed.

(** When Docker Hub answers, [checkRoundcube] compares the pinned tag with
    whatever stands for the latest one, the string "unknown" included. *)
Lemma checkRoundcube_answered reg data :
  dockerHub reg = Ret data ->
  updateAvailable (checkRoundcube reg)
  = negb (String.eqb "1.6-apache" (latestVersion (checkRoundcube reg))).
Proof. intros H. unfold checkRoundcube. now rewrite H. Qed.

(** The pattern of the Roundcube tags on some tags of Docker Hub. *)
Example matches_apache_tag_examples :
  map matches_apache_tag
    ["1.7-apache"; "10.12-apache"; "1.6.x-apache"; "1.6.9-apache"; "latest";
     "1.6-apache-nonroot"; "v1.6-apache"; ".6-apache"; "1.-apache"]
  = [true; true; false; false; false; false; false; false; false].
Proof. reflexivity. Qed.

(** C1: with a latest version that did not resolve, both version checks
    report an update.  Docker Hub lists no tag of the form [N.N-apache], so
    [checkRoundcube] takes "unknown" for the latest version and compares the
    pinned tag with it; the npm document has no [version], and
    [checkNpmPackage] guards only the current version. *)
Theorem unresolved_latest_reports_update :
  let r := checkRoundcube registry_unresolved_latest in
  let n := checkNpmPackage registry_unresolved_latest "@nestjs/core" "nestjs-core" in
  (latestVersion r = "unknown" /\ updateAvailable r = true) /\
  (latestVersion n = "unknown" /\ currentVersion n = "10.3.0"
   /\ updateAvailable n = true).
Proof. cbv zeta. repeat split; reflexivity. Qed.

(** ** The four health checks *)

Import MailDiagnosticsService.

Lemma ssl_status_cases days :
  (14 < days -> ssl_status days = Ok) /\
  (7 < days <= 14 -> ssl_status days = Warning) /\
  (days <= 7 -> ssl_status days = Error).
Proof.
  unfold ssl_status.
  destruct (Z.gtb_spec days 14), (Z.gtb_spec days 7); repeat split; intros; lia || reflexivity.
Qed.

(** C4, as the code has it: a host that cannot be reached gives error; with
    a peer certificate the status is ok above 14 days, warning from 8 to 14
    days and error at 7 days or fewer. *)
Theorem ssl_certificate_status p :
  (forall message,
      tls_connect p = Throw message -> status (checkSslCertificate p) = Error) /\
  (forall cert expiry,
      tls_connect p = Ret cert ->
      valid_to cert = Some expiry ->
      let days := daysUntilExpiry expiry (tls_now p) in
      (14 < days -> status (checkSslCertificate p) = Ok) /\
      (7 < days <= 14 -> status (checkSslCertificate p) = Warning) /\
      (days <= 7 -> status (checkSslCertificate p) = Error)).
Proof.
  unfold checkSslCertificate. split.
  - intros message ->. reflexivity.
  - intros cert expiry -> ->. cbn. apply ssl_status_cases.
Qed.

Lemma ssl_certificate_status_witness :
  status (checkSslCertificate (probes_with_cert_days 10)) = Warning.
Proof.
  destruct (ssl_certificate_status (probes_with_cert_days 10)) as [_ H].
  refine (proj1 (proj2 (H _ _ eq_refl eq_refl)) _).
  vm_compute. split; [reflexivity | discriminate].
Defined.

(** C4 as it is stated fails at seven days: the claim asks for a warning,
    the check gives error. *)
Lemma ssl_certificate_seven_days :
  let p := probes_with_cert_days 7 in
  exists cert expiry,
    tls_connect p = Ret cert /\ valid_to cert = Some expiry /\
    daysUntilExpiry expiry (tls_now p) = 7 /\
    status (checkSslCertificate p) = Error /\
    ~ (7 <= daysUntilExpiry expiry (tls_now p) <= 14 ->
       status (checkSslCertificate p) = Warning).
Proof.
  cbv zeta. eexists. eexists. split; [reflexivity|]. split; [reflexivity|].
  split; [reflexivity|]. split; [reflexivity|].
  intros H. assert (E : status (checkSslCertificate (probes_with_cert_days 7)) = Warning).
  { apply H. vm_compute. split; discriminate. }
  discriminate E.
Qed.

(** C5, as the code has it: a result of one of the four checks carries an
    error message exactly when it comes from the [catch] branch of its check
    (status error, empty details) or from the missing-credentials branch of
    the SMTP or IMAP check (status warning).  So an ok result never has one,
    and an error that a threshold decides has none. *)
Theorem errorMsg_presence p c :
  In c (registered_checks p) ->
  (errorMsg c <> None <-> caught_error c \/ credentials_warning c) /\
  (status c = Ok -> errorMsg c = None).
Proof.
  unfold registered_checks, caught_error, credentials_warning.
  intros [<-|[<-|[<-|[<-|[]]]]].
  - unfold checkSmtp.
    destruct (falsy _ || falsy _); [|destruct (smtp_verify p)]; cbn;
      (split; [split|]); intros; try congruence; intuition congruence.
  - unfold checkImap.
    destruct (falsy _ || falsy _); [|destruct (imap_session p)]; cbn;
      (split; [split|]); intros; try congruence; intuition congruence.
  - unfold checkSslCertificate.
    destruct (tls_connect p) as [cert|]; [destruct (valid_to cert)|]; cbn;
      (split; [split|]); intros; try congruence; intuition (try congruence);
      discriminate.
  - unfold checkRoundcubeHealth.
    destruct (http_get p); cbn;
      (split; [split|]); intros; try congruence; intuition (try congruence);
      discriminate.
Qed.

Lemma errorMsg_presence_witness :
  errorMsg (checkSmtp healthy_probes) = None.
Proof.
  refine (proj2 (errorMsg_presence healthy_probes (checkSmtp healthy_probes) _) _).
  - left. reflexivity.
  - reflexivity.
Defined.

(** C5 as it is stated fails in both directions: without SMTP credentials
    the result is a warning with an error message, and a certificate with
    five days left gives an error without one. *)
Lemma errorMsg_not_iff_error :
  let c := checkSmtp probes_without_smtp_credentials in
  let d := checkSslCertificate (probes_with_cert_days 5) in
  (status c = Warning /\ errorMsg c = Some "SMTP credentials not configured"
   /\ ~ (errorMsg c <> None <-> status c = Error)) /\
  (status d = Error /\ errorMsg d = None
   /\ ~ (errorMsg d <> None <-> status d = Error)).
Proof.
  cbv zeta. split; (split; [reflexivity|split; [reflexivity|]]).
  - intros [H _]. assert (E : status (checkSmtp probes_without_smtp_credentials) = Error).
    { apply H. discriminate. }
    discriminate E.
  - intros [_ H].
    assert (E : errorMsg (checkSslCertificate (probes_with_cert_days 5)) <> None).
    { apply H. reflexivity. }
    apply E. reflexivity.
Qed.
(** ** Running a computation step by step *)

Lemma bind_Ret {S A B} {m : M S A} {k : A -> M S B} {s a s'} :
  m s = (Ret a, s') -> bind m k s = k a s'.
Proof. intros H. unfold bind. now rewrite H. Qed.

Lemma bind_Throw {S A B} {m : M S A} {k : A -> M S B} {s e s'} :
  m s = (Throw e, s') -> bind m k s = (Throw e, s').
Proof. intros H. unfold bind. now rewrite H. Qed.

Lemma inWorld_run {A} {m : M World A} {f r w'} :
  m (world f) = (r, w') ->
  inWorld m f = (r, {| f_results := f_results f; world := w' |}).
Proof. intros H. unfold inWorld. now rewrite H. Qed.

(** ** The diagnostics run *)

Lemma updater_view_add_log l msg w :
  updater_view (add_log l msg w) = updater_view w.
Proof. reflexivity. Qed.

Lemma updater_view_add_diagnostics_row r w :
  updater_view (add_diagnostics_row r w) = updater_view w.
Proof. reflexivity. Qed.


Lemma attemptRepair_returns c w :
  exists tag w',
    attemptRepair c w = (Ret tag, w') /\ updater_view w' = updater_view w.
Proof.
  unfold attemptRepair, logger, bind, modify, ret.
  repeat match goal with
         | |- context [if ?b then _ else _] => destruct b
         end; eexists; eexists; split; reflexivity.
Qed.

Lemma repairFailed_returns cs : forall w,
  exists tags w',
    repairFailed cs w = (Ret tags, w') /\ updater_view w' = updater_view w.
Proof.
  induction cs as [|c cs IH]; intros w; cbn [repairFailed].
  - eexists; eexists; split; reflexivity.
  - destruct (status c); try apply IH.
    destruct (attemptRepair_returns c w) as (tag & w1 & E1 & V1).
    destruct (IH w1) as (tags & w2 & E2 & V2).
    eexists; eexists; split;
      [rewrite (bind_Ret E1), (bind_Ret E2); reflexivity|congruence].
Qed.

Lemma persistCheck_returns p c w :
  exists w', persistCheck p c w = (Ret tt, w') /\ updater_view w' = updater_view w.
Proof.
  unfold persistCheck, try_catch, bind, call, logger, modify.
  destruct (persist_query p c); cbn; eexists; split; reflexivity.
Qed.

Lemma persist_all_returns p cs : forall w,
  exists w',
    for_each cs (persistCheck p) w = (Ret tt, w') /\
    updater_view w' = updater_view w.
Proof.
  induction cs as [|c cs IH]; intros w; cbn [for_each].
  - eexists; split; reflexivity.
  - destruct (persistCheck_returns p c w) as (w1 & E1 & V1).
    destruct (IH w1) as (w2 & E2 & V2).
    eexists; split; [rewrite (bind_Ret E1); exact E2|congruence].
Qed.

Lemma logBeforeAfterReport_returns p after rows w :
  previous_query p = Ret rows ->
  exists w',
    logBeforeAfterReport p after w = (Ret tt, w') /\
    updater_view w' = updater_view w.
Proof.
  intros H. unfold logBeforeAfterReport, await, logger, modify, bind, ret.
  rewrite H. destruct (_ =? _)%nat; eexists; split; reflexivity.
Qed.

Lemma logBeforeAfterReport_throws p after message w :
  previous_query p = Throw message ->
  logBeforeAfterReport p after w = (Throw message, w).
Proof.
  intros H. unfold logBeforeAfterReport, await, bind, throw. now rewrite H.
Qed.

(** What [diagnose] does: the report is built from the four settled
    results, and only the comparison with the previous run can throw. *)
Lemma diagnose_run beforeAfter p smtp imap ssl roundcube w :
  let cs := [unwrap smtp; unwrap imap; unwrap ssl; unwrap roundcube] in
  exists tags w',
    updater_view w' = updater_view w /\
    diagnose beforeAfter p smtp imap ssl roundcube w =
      (match beforeAfter, previous_query p with
       | true, Throw message => Throw message
       | _, _ => Ret {| timestamp := report_time p;
                        overall := overall_of cs;
                        checks := cs;
                        repairsAttempted := tags |}
       end, w').
Proof.
  intros cs. unfold diagnose. fold cs.
  destruct (repairFailed_returns cs w) as (tags & w1 & E1 & V1).
  destruct (persist_all_returns p cs w1) as (w2 & E2 & V2).
  rewrite (bind_Ret E1), (bind_Ret E2).
  exists tags.
  destruct beforeAfter.
  - destruct (previous_query p) as [rows|message] eqn:Q.
    + destruct (logBeforeAfterReport_returns p
                  {| timestamp := report_time p; overall := overall_of cs;
                     checks := cs; repairsAttempted := tags |} rows
                  (add_log LLog ("Diagnostics complete in " ++ string_of_Z (total_elapsed p)
                     ++ "ms – overall: " ++ status_string (overall_of cs)) w2) Q)
        as (w3 & E3 & V3).
      exists w3. split; [rewrite V3, updater_view_add_log; congruence|].
      unfold bind at 1. unfold logger, modify. 
      rewrite (bind_Ret E3). reflexivity.
    + eexists. split; [|unfold bind at 1; unfold logger, modify;
        erewrite bind_Throw by (apply logBeforeAfterReport_throws; exact Q); reflexivity].
      rewrite updater_view_add_log. congruence.
  - eexists. split; [|unfold bind, logger, modify, ret; reflexivity].
    rewrite updater_view_add_log. congruence.
Qed.

Lemma runFullDiagnostics_run beforeAfter p w :
  exists tags w',
    updater_view w' = updater_view w /\
    runFullDiagnostics beforeAfter p w =
      (match beforeAfter, previous_query p with
       | true, Throw message => Throw message
       | _, _ => Ret {| timestamp := report_time p;
                        overall := probed_overall p;
                        checks := registered_checks p;
                        repairsAttempted := tags |}
       end, w').
Proof.
  unfold runFullDiagnostics.
  destruct (diagnose_run beforeAfter p
              (Fulfilled (checkSmtp p)) (Fulfilled (checkImap p))
              (Fulfilled (checkSslCertificate p))
              (Fulfilled (checkRoundcubeHealth p))
              (add_log LLog "Starting full mail diagnostics..." w))
    as (tags & w' & V & E).
  exists tags, w'. split.
  - rewrite V. apply updater_view_add_log.
  - unfold bind at 1. unfold logger, modify. exact E.
Qed.

Lemma registered_check_types p :
  map checkType (registered_checks p)
  = ["smtp_send"; "imap_login"; "ssl_cert"; "roundcube_health"].
Proof.
  unfold registered_checks, checkSmtp, checkImap, checkSslCertificate,
    checkRoundcubeHealth.
  destruct (falsy _ || falsy _), (falsy _ || falsy _), (smtp_verify p),
    (imap_session p), (tls_connect p) as [[[?|] ?]|], (http_get p); reflexivity.
Qed.

(** C8: a diagnostics run that returns its report has exactly the four
    results of the registered checks in it, in their order and whatever the
    probes answered; without the comparison every run returns, with it a run
    fails to return only when the query for the previous results rejects.
    The same holds from any four settled promises, where a rejected one
    becomes an error result. *)
Theorem one_result_per_registered_check :
  (forall beforeAfter p w,
      match fst (runFullDiagnostics beforeAfter p w) with
      | Ret report =>
          checks report = registered_checks p /\
          length (checks report) = 4%nat /\
          map checkType (checks report)
          = ["smtp_send"; "imap_login"; "ssl_cert"; "roundcube_health"]
      | Throw message =>
          beforeAfter = true /\ previous_query p = Throw message
      end) /\
  (forall beforeAfter p smtp imap ssl roundcube w,
      match fst (diagnose beforeAfter p smtp imap ssl roundcube w) with
      | Ret report =>
          checks report = [unwrap smtp; unwrap imap; unwrap ssl; unwrap roundcube]
      | Throw message =>
          beforeAfter = true /\ previous_query p = Throw message
      end) /\
  (forall reason,
      status (unwrap (Rejected reason)) = Error /\
      errorMsg (unwrap (Rejected reason)) = Some (nullish reason "Promise rejected")).
Proof.
  split; [|split].
  - intros b p w.
    destruct (runFullDiagnostics_run b p w) as (tags & w' & _ & E).
    rewrite E. cbn [fst].
    destruct b; [destruct (previous_query p)|]; cbn [checks];
      try (split; [reflexivity|split; [reflexivity|apply registered_check_types]]).
    split; reflexivity.
  - intros b p smtp imap ssl roundcube w.
    destruct (diagnose_run b p smtp imap ssl roundcube w) as (tags & w' & _ & E).
    rewrite E. cbn [fst].
    destruct b; [destruct (previous_query p)|]; cbn [checks];
      try reflexivity.
    split; reflexivity.
  - intros reason. split; reflexivity.
Qed.

(** C6: a run with the comparison throws to its caller whenever the query
    for the previous results rejects: [logBeforeAfterReport] awaits the
    query outside of any [try], unlike [persistCheck].  The route
    [POST /emails/diagnostics/run] hands that promise on. *)
Theorem comparison_query_failure_escapes p w message :
  previous_query p = Throw message ->
  fst (runFullDiagnostics true p w) = Throw message /\
  fst (EmailsController.runDiagnostics (Some true) p w) = Throw message.
Proof.
  intros Q. unfold EmailsController.runDiagnostics. cbn [nullish].
  destruct (runFullDiagnostics_run true p w) as (tags & w' & _ & E).
  rewrite E, Q. split; reflexivity.
Qed.

Lemma comparison_query_failure_escapes_witness :
  fst (runFullDiagnostics true probes_database_down initial_world)
  = Throw "connect ECONNREFUSED 127.0.0.1:5432".
Proof.
  exact (proj1 (comparison_query_failure_escapes
                  probes_database_down initial_world _ eq_refl)).
Defined.

(** Without the comparison a diagnostics run returns whatever happens. *)
Lemma runFullDiagnostics_false_returns p w :
  exists report, fst (runFullDiagnostics false p w) = Ret report.
Proof.
  destruct (runFullDiagnostics_run false p w) as (tags & w' & _ & E).
  rewrite E. eexists. reflexivity.
Qed.

(** ** The update cycle *)

Lemma checkAndInstallAll_busy inp w :
  isUpdating w = true ->
  checkAndInstallAll inp w =
    (Ret {| results := []; diagnosticsStatus := "update-already-in-progress" |}, w).
Proof. intros H. unfold checkAndInstallAll, bind, gets. now rewrite H. Qed.

(** The [finally] block: a call that was not rejected leaves the busy flag
    cleared, whether it returns or throws. *)
Lemma busy_flag_cleared inp w :
  isUpdating w = false ->
  isUpdating (snd (checkAndInstallAll inp w)) = false.
Proof.
  intros H. unfold checkAndInstallAll, bind, gets, modify. rewrite H.
  unfold with_results, try_finally, inWorld.
  destruct (try_catch _ _ _) as [r f]. reflexivity.
Qed.

(** The route answers "accepted" in every state. *)
Lemma runUpdater_always_accepted inp w :
  fst (EmailsController.runUpdater inp w)
  = Ret {| EmailsController.message := "Update check started";
           EmailsController.status := "accepted" |}.
Proof.
  unfold EmailsController.runUpdater.
  destruct (checkAndInstallAll inp w). reflexivity.
Qed.

(** C3, as the code has it: while a cycle is in flight a call of
    [checkAndInstallAll] resolves at once to the rejection (no results,
    status "update-already-in-progress") and changes nothing, so that no
    second cycle starts and no row is added to [update_history]; the
    scheduled trigger drops that value, and the route [POST
    /emails/updater/run] answers "accepted" as it does in every state. *)
Theorem busy_trigger_starts_no_cycle inp w :
  isUpdating w = true ->
  checkAndInstallAll inp w =
    (Ret {| results := []; diagnosticsStatus := "update-already-in-progress" |}, w) /\
  update_history (snd (checkAndInstallAll inp w)) = update_history w /\
  runScheduledUpdate inp w = (Ret tt, w) /\
  EmailsController.runUpdater inp w =
    (Ret {| EmailsController.message := "Update check started";
            EmailsController.status := "accepted" |}, w).
Proof.
  intros H. pose proof (checkAndInstallAll_busy inp w H) as E.
  split; [exact E|]. split; [now rewrite E|]. split.
  - unfold runScheduledUpdate, bind. now rewrite E.
  - unfold EmailsController.runUpdater. now rewrite E.
Qed.

Lemma busy_trigger_starts_no_cycle_witness :
  update_history (snd (checkAndInstallAll smooth_update busy_world)) = [].
Proof.
  exact (proj1 (proj2 (busy_trigger_starts_no_cycle smooth_update busy_world eq_refl))).
Defined.

(** C3 as it is stated fails for the trigger over HTTP: with a cycle in
    flight the route still answers "accepted". *)
Lemma busy_http_trigger_is_accepted :
  isUpdating busy_world = true /\
  exists response,
    fst (EmailsController.runUpdater smooth_update busy_world) = Ret response /\
    EmailsController.status response = "accepted" /\
    EmailsController.status response <> "update-already-in-progress" /\
    EmailsController.message response = "Update check started".
Proof.
  split; [reflexivity|]. eexists. split; [reflexivity|].
  split; [reflexivity|]. split; [discriminate|reflexivity].
Qed.

(** C10: a call of [checkAndInstallAll] while the busy flag is set leaves
    the progress record, the maintenance flag and the queue as they are;
    indeed it leaves the whole state as it is. *)
Theorem rejected_call_changes_nothing inp w :
  isUpdating w = true ->
  let w' := snd (checkAndInstallAll inp w) in
  updateProgress w' = updateProgress w /\
  maintenanceMode w' = maintenanceMode w /\
  queuePaused w' = queuePaused w /\
  w' = w.
Proof.
  intros H. cbv zeta. rewrite (checkAndInstallAll_busy inp w H).
  repeat split; reflexivity.
Qed.

Lemma rejected_call_changes_nothing_witness :
  updateProgress (snd (checkAndInstallAll smooth_update busy_world))
  = updateProgress busy_world.
Proof.
  exact (proj1 (rejected_call_changes_nothing smooth_update busy_world eq_refl)).
Defined.

(** [execSafe] never throws. *)
Lemma execSafe_returns inp cmd : exists out, execSafe inp cmd = Ret out.
Proof. unfold execSafe. destruct (execSync inp cmd); eexists; reflexivity. Qed.

(** So the [catch] block of [installUpdate] is never entered. *)
Lemma installUpdate_always_success inp check :
  success (installUpdate inp check) = true.
Proof.
  unfold installUpdate, installCommands.
  destruct (String.eqb (component check) "roundcube").
  - unfold bind, await, modify, ret.
    destruct (execSafe_returns inp
                ("docker pull roundcube/roundcubemail:" ++ latestVersion check))
      as [out ->].
    destruct (execSafe_returns inp
                "docker compose -f /app/email-server/docker-compose.mail.yml up -d roundcube")
      as [up ->].
    reflexivity.
  - unfold bind, await, modify, ret.
    match goal with
    | |- context [execSafe inp ?cmd] =>
        destruct (execSafe_returns inp cmd) as [out ->]
    end.
    reflexivity.
Qed.

(** C7: the commands of the Roundcube update all fail, and the update is
    recorded as a success: [execSafe] has turned the exception into the
    output "EXEC ERROR: ...", so that [installUpdate] never reaches its
    [catch] block.  The row in [update_history] says "success" too. *)
Theorem failed_install_recorded_as_success :
  let run := checkAndInstallAll update_with_failing_commands initial_world in
  fst run =
    Ret {| results :=
             [ {| ur_component := "roundcube";
                  previousVersion := "1.6-apache";
                  newVersion := "1.7-apache";
                  success := true;
                  logOutput := "EXEC ERROR: Command failed: exit code 1" ++ nl
                               ++ "EXEC ERROR: Command failed: exit code 1" |} ];
           diagnosticsStatus := "ok" |} /\
  map h_status (update_history (snd run)) = ["success"] /\
  p_status (updateProgress (snd run)) = Done.
Proof. cbv zeta. vm_compute. repeat split; reflexivity. Qed.

Lemma setProgress_run st message progress comp w :
  setProgress st message progress comp w =
    (Ret tt,
     add_log LLog ("[Updater] " ++ message ++ " (" ++ string_of_Z progress ++ "%)")
       (set_updateProgress
          {| p_status := st; p_message := message; p_progress := progress;
             p_component := comp |} w)).
Proof. reflexivity. Qed.

Lemma saveUpdateHistory_run inp r w :
  saveUpdateHistory inp r w =
    (Ret tt,
     match history_query inp r with
     | None => add_history_row (history_row r) w
     | Some message =>
         add_log LError ("Failed to save update history: " ++ message) w
     end).
Proof.
  unfold saveUpdateHistory, try_catch, bind, call, modify, logger.
  destruct (history_query inp r); reflexivity.
Qed.

(** The install loop returns: it has tried every pending component in
    order, and has added a row for every result whose insert went through. *)
Lemma installPending_run inp pending : forall progressStep f,
  exists f',
    installPending inp pending progressStep f = (Ret tt, f') /\
    f_results f' = (f_results f ++ map (installUpdate inp) pending)%list /\
    update_history (world f') =
      (update_history (world f)
         ++ map history_row (filter (saved inp) (map (installUpdate inp) pending)))%list /\
    maintenance_view (world f') = maintenance_view (world f).
Proof.
  induction pending as [|check rest IH]; intros progressStep f.
  - exists f. cbn. rewrite !app_nil_r. repeat split; reflexivity.
  - cbn [installPending].
    rewrite (bind_Ret (inWorld_run (setProgress_run _ _ _ _ _))).
    unfold push_result at 1. unfold bind at 1. unfold modify at 1.
    rewrite (bind_Ret (inWorld_run (saveUpdateHistory_run _ _ _))).
    match goal with
    | |- context [installPending inp rest ?s ?g] =>
        destruct (IH s g) as (f' & E & R & H & V)
    end.
    exists f'. split; [exact E|]. cbn [f_results world] in R, H, V.
    split; [|split].
    + rewrite R, <- app_assoc. reflexivity.
    + rewrite H. cbn [map filter]. unfold saved at 2.
      destruct (history_query inp (installUpdate inp check));
        cbn [map update_history add_history_row add_log set_updateProgress];
        [reflexivity|rewrite <- app_assoc; reflexivity].
    + rewrite V. destruct (history_query inp (installUpdate inp check)); reflexivity.
Qed.

Lemma settled_view_of_updater_view w w' :
  updater_view w' = updater_view w -> settled_view w' = settled_view w.
Proof. unfold updater_view, settled_view. intros H. now inversion H. Qed.

(** The repair loop returns.  It leaves with [n] re-runs done, at most
    three: every run before the last one ended in error, and the last one
    did not unless [n] is three. *)
Lemma repairLoop_run inp fuel : forall repairAttempts report w,
  0 <= repairAttempts ->
  3 - repairAttempts <= Z.of_nat fuel ->
  overall report = probed_overall (probes_of_run inp repairAttempts) ->
  exists final n w',
    repairLoop fuel inp repairAttempts report w = (Ret (final, n), w') /\
    repairAttempts <= n <= Z.max 3 repairAttempts /\
    overall final = probed_overall (probes_of_run inp n) /\
    (forall k, repairAttempts <= k < n ->
               probed_overall (probes_of_run inp k) = Error) /\
    (n < 3 -> overall final <> Error) /\
    settled_view w' = settled_view w.
Proof.
  induction fuel as [|fuel IH]; intros a report w Ha Hfuel Hov.
  - cbn [repairLoop].
    replace (a <? 3) with false by (symmetry; apply Z.ltb_ge; lia).
    rewrite andb_false_r.
    exists report, a, w. split; [reflexivity|]. split; [lia|]. split; [exact Hov|].
    split; [intros; lia|]. split; [intros; lia|reflexivity].
  - cbn [repairLoop].
    destruct (status_eqb (overall report) Error) eqn:Es; cbn [andb].
    + destruct (Z.ltb_spec a 3) as [Hlt|Hge].
      * rewrite (bind_Ret (setProgress_run _ _ _ _ _)).
        match goal with
        | |- context [bind (runFullDiagnostics false ?p) _ ?w0] =>
            destruct (runFullDiagnostics_run false p w0) as (tags & w1 & V1 & E1)
        end.
        cbv beta iota in E1. rewrite (bind_Ret E1).
        match goal with
        | |- context [repairLoop fuel inp (a + 1) ?r w1] =>
            destruct (IH (a + 1) r w1) as (final & n & w2 & E2 & Hn & Hf & Hk & Hl & V2)
        end.
        { lia. }
        { lia. }
        { cbn [overall]. unfold probes_of_run.
          replace (a + 1 =? 0) with false by (symmetry; apply Z.eqb_neq; lia).
          reflexivity. }
        exists final, n, w2. split; [exact E2|]. split; [lia|]. split; [exact Hf|].
        split; [|split; [exact Hl|]].
        -- intros k Hk'. destruct (Z.eq_dec k a) as [->|Hne].
           ++ rewrite <- Hov. destruct (overall report); try discriminate Es. reflexivity.
           ++ apply Hk. lia.
        -- rewrite V2. rewrite (settled_view_of_updater_view _ _ V1). reflexivity.
      * exists report, a, w. split; [reflexivity|]. split; [lia|]. split; [exact Hov|].
        split; [intros; lia|]. split; [intros; lia|reflexivity].
    + exists report, a, w. split; [reflexivity|]. split; [lia|]. split; [exact Hov|].
      split; [intros; lia|]. split; [|reflexivity].
      intros _ Herr. rewrite Herr in Es. discriminate Es.
Qed.

Lemma enterMaintenanceMode_run inp w :
  queue_pause inp = None ->
  AutoUpdaterService.enterMaintenanceMode inp w =
    (Ret tt,
     add_log LLog "Maintenance mode ON – queues paused"
       (set_queuePaused true
          (add_log LLog "Mail diagnostics paused – maintenance mode ON"
             (set_maintenanceMode true w)))).
Proof.
  intros H. unfold AutoUpdaterService.enterMaintenanceMode. rewrite H. reflexivity.
Qed.

Lemma exitMaintenanceMode_run w :
  AutoUpdaterService.exitMaintenanceMode None w =
    (Ret tt,
     add_log LLog "Maintenance mode OFF – queues resumed"
       (add_log LLog "Mail diagnostics resumed – maintenance mode OFF"
          (set_maintenanceMode false (set_queuePaused false w)))).
Proof. reflexivity. Qed.

Lemma exitMaintenanceMode_throws message w :
  AutoUpdaterService.exitMaintenanceMode (Some message) w = (Throw message, w).
Proof. reflexivity. Qed.

(** The [catch] block sets the status to failed, and leaves maintenance
    mode if the queue lets itself be resumed; if not, the exception of
    [resume] leaves the block and the maintenance flag stays as it was. *)
Lemma cycle_failed_run inp message f :
  exists f',
    cycle_failed inp message f =
      (match queue_resume_in_catch inp with
       | None => Ret {| results := f_results f; diagnosticsStatus := "error" |}
       | Some resume_message => Throw resume_message
       end, f') /\
    p_status (updateProgress (world f')) = Failed /\
    isUpdating (world f') = isUpdating (world f) /\
    match queue_resume_in_catch inp with
    | None => maintenanceMode (world f') = false /\ queuePaused (world f') = false
    | Some _ => maintenanceMode (world f') = maintenanceMode (world f) /\
                queuePaused (world f') = queuePaused (world f)
    end.
Proof.
  unfold cycle_failed.
  unfold bind at 1. unfold inWorld at 1. unfold logger at 1. unfold modify at 1.
  rewrite (bind_Ret (inWorld_run (setProgress_run _ _ _ _ _))).
  destruct (queue_resume_in_catch inp) as [resume_message|].
  - rewrite (bind_Throw (inWorld_run (exitMaintenanceMode_throws _ _))).
    eexists. split; [reflexivity|]. repeat split; reflexivity.
  - rewrite (bind_Ret (inWorld_run (exitMaintenanceMode_run _))).
    eexists. split; [reflexivity|]. repeat split; reflexivity.
Qed.

(** A cycle that reaches the repair loop: the install loop has run over all
    pending components, maintenance mode is left, and the status at the end
    follows the overall status of the last diagnostics run. *)
Lemma cycle_run inp f :
  pending_of inp <> [] ->
  queue_pause inp = None ->
  queue_resume_after_install inp = None ->
  (exists rows, previous_query (diagnostics_first inp) = Ret rows) ->
  exists reruns f',
    0 <= reruns <= 3 /\
    (forall k, 0 <= k < reruns -> probed_overall (probes_of_run inp k) = Error) /\
    (reruns < 3 -> probed_overall (probes_of_run inp reruns) <> Error) /\
    cycle inp f =
      (Ret {| results := (f_results f ++ map (installUpdate inp) (pending_of inp))%list;
              diagnosticsStatus :=
                status_string (probed_overall (probes_of_run inp reruns)) |}, f') /\
    p_status (updateProgress (world f')) =
      match probed_overall (probes_of_run inp reruns) with
      | Ok => Done
      | Warning | Error => Failed
      end /\
    maintenanceMode (world f') = false /\
    queuePaused (world f') = false /\
    isUpdating (world f') = isUpdating (world f).
Proof.
  intros Hpending Hpause Hresume [rows Hprev].
  unfold cycle. fold (pending_of inp).
  rewrite (bind_Ret (inWorld_run (setProgress_run _ _ _ _ _))).
  destruct (pending_of inp) as [|check rest] eqn:Ep; [congruence|].
  cbn [length Nat.eqb].
  rewrite (bind_Ret (inWorld_run (setProgress_run _ _ _ _ _))).
  rewrite (bind_Ret (inWorld_run (enterMaintenanceMode_run _ _ Hpause))).
  match goal with
  | |- context [bind (installPending inp ?p ?s) _ ?g] =>
      destruct (installPending_run inp p s g) as (f1 & E1 & R1 & _ & V1)
  end.
  rewrite (bind_Ret E1).
  rewrite (bind_Ret (inWorld_run (setProgress_run _ _ _ _ _))).
  rewrite Hresume.
  rewrite (bind_Ret (inWorld_run (exitMaintenanceMode_run _))).
  match goal with
  | |- context [bind (inWorld (runFullDiagnostics true ?p)) _ ?g] =>
      destruct (runFullDiagnostics_run true p (world g)) as (tags & w2 & V2 & E2)
  end.
  rewrite Hprev in E2.
  rewrite (bind_Ret (inWorld_run E2)).
  match goal with
  | |- context [bind (inWorld (repairLoop 3 inp 0 ?r)) _ ?g] =>
      destruct (repairLoop_run inp 3 0 r (world g))
        as (final & n & w3 & E3 & Hn & Hf & Hk & Hl & V3)
  end.
  { lia. }
  { cbn. lia. }
  { reflexivity. }
  rewrite (bind_Ret (inWorld_run E3)).
  cbn [fst]. rewrite Hf.
  rewrite (bind_Ret (inWorld_run (setProgress_run _ _ _ _ _))).
  exists n. eexists. split; [lia|]. split; [exact Hk|]. split; [rewrite <- Hf; exact Hl|].
  split; [unfold returned, bind, gets, ret; cbn [f_results]; rewrite R1; reflexivity|].
  cbn [world f_results] in *.
  apply settled_view_of_updater_view in V2.
  unfold settled_view in V2, V3. unfold maintenance_view in V1.
  cbn in V1, V2, V3.
  inversion V1; inversion V2; inversion V3.
  cbn [world updateProgress add_log set_updateProgress p_status maintenanceMode
         queuePaused isUpdating].
  split; [destruct (probed_overall (probes_of_run inp n)); reflexivity|].
  repeat split; congruence.
Qed.

(** The number of re-runs is fixed by what the runs answer. *)
Lemma rerun_count_unique (overall_of_run : Z -> Status) n m :
  0 <= n <= 3 -> 0 <= m <= 3 ->
  (forall k, 0 <= k < n -> overall_of_run k = Error) ->
  (forall k, 0 <= k < m -> overall_of_run k = Error) ->
  (n < 3 -> overall_of_run n <> Error) ->
  (m < 3 -> overall_of_run m <> Error) ->
  n = m.
Proof.
  intros Hn Hm Kn Km Ln Lm.
  destruct (Z.lt_trichotomy n m) as [Hlt|[Heq|Hgt]]; [|exact Heq|].
  - exfalso. apply Ln; [lia|]. apply Km. lia.
  - exfalso. apply Lm; [lia|]. apply Kn. lia.
Qed.

(** C2 as it is stated fails when the diagnostics end with a warning: the
    loop does not re-run them, and the cycle ends failed, not done. *)
Lemma warning_ends_failed :
  let run := checkAndInstallAll update_then_warning initial_world in
  probed_overall (diagnostics_first update_then_warning) = Warning /\
  (exists rs, fst run = Ret {| results := rs; diagnosticsStatus := "warning" |}) /\
  p_status (updateProgress (snd run)) = Failed /\
  p_status (updateProgress (snd run)) <> Done.
Proof.
  cbv zeta. split; [reflexivity|]. split; [eexists; reflexivity|].
  split; [reflexivity|]. vm_compute. discriminate.
Qed.

(** C9: the queue cannot be resumed.  The call of [resume] after the
    installs throws, the [catch] block sets the status to failed and calls
    [resume] once more, which throws again before the maintenance flag is
    reset: the cycle ends with the busy flag cleared, but with maintenance
    mode on and the queue paused, and the exception reaches the caller. *)
Theorem failed_resume_keeps_maintenance_mode :
  let run := checkAndInstallAll update_with_queue_down initial_world in
  fst run = Throw "Connection is closed." /\
  p_status (updateProgress (snd run)) = Failed /\
  isUpdating (snd run) = false /\
  maintenanceMode (snd run) = true /\
  queuePaused (snd run) = true.
Proof. cbv zeta. vm_compute. repeat split; reflexivity. Qed.

(** ** Further properties of the diagnostics run *)

Lemma attemptRepair_run c w :
  exists w',
    attemptRepair c w = (Ret (repair_tag (checkType c)), w') /\
    updater_view w' = updater_view w /\
    mail_diagnostics w' = mail_diagnostics w.
Proof.
  unfold attemptRepair, repair_tag, logger, bind, modify, ret.
  repeat match goal with
         | |- context [if ?b then _ else _] => destruct b
         end; eexists; split; try reflexivity; split; reflexivity.
Qed.

Lemma repair_tag_not_empty t tag : repair_tag t = Some tag -> String.eqb tag "" = false.
Proof.
  unfold repair_tag.
  repeat match goal with
         | |- context [if ?b then _ else _] => destruct b
         end; intros E; inversion E; reflexivity.
Qed.

Lemma repairFailed_run cs : forall w,
  exists w',
    repairFailed cs w = (Ret (repair_tags cs), w') /\
    updater_view w' = updater_view w /\
    mail_diagnostics w' = mail_diagnostics w.
Proof.
  induction cs as [|c cs IH]; intros w; cbn [repairFailed repair_tags].
  - exists w. repeat split; reflexivity.
  - unfold is_error. destruct (status c); cbn [status_eqb]; try apply IH.
    destruct (attemptRepair_run c w) as (w1 & E1 & V1 & D1).
    destruct (IH w1) as (w2 & E2 & V2 & D2).
    exists w2. split; [|split; congruence].
    rewrite (bind_Ret E1), (bind_Ret E2). unfold ret.
    destruct (repair_tag (checkType c)) as [tag|] eqn:T; [|reflexivity].
    rewrite (repair_tag_not_empty _ _ T). reflexivity.
Qed.

Lemma persistCheck_run p c w :
  exists w',
    persistCheck p c w = (Ret tt, w') /\
    updater_view w' = updater_view w /\
    mail_diagnostics w' =
      (mail_diagnostics w ++ (if persisted p c then [diagnostics_row c] else []))%list.
Proof.
  unfold persistCheck, persisted, try_catch, bind, call, logger, modify.
  destruct (persist_query p c); cbn; eexists; split; try reflexivity;
    split; try reflexivity.
  cbn. now rewrite app_nil_r.
Qed.

Lemma persist_all_run p cs : forall w,
  exists w',
    for_each cs (persistCheck p) w = (Ret tt, w') /\
    updater_view w' = updater_view w /\
    mail_diagnostics w' =
      (mail_diagnostics w ++ map diagnostics_row (filter (persisted p) cs))%list.
Proof.
  induction cs as [|c cs IH]; intros w; cbn [for_each filter map].
  - exists w. rewrite app_nil_r. repeat split; reflexivity.
  - destruct (persistCheck_run p c w) as (w1 & E1 & V1 & D1).
    destruct (IH w1) as (w2 & E2 & V2 & D2).
    exists w2. split; [rewrite (bind_Ret E1); exact E2|]. split; [congruence|].
    rewrite D2, D1. destruct (persisted p c); cbn [map];
      rewrite <- app_assoc; reflexivity.
Qed.

Lemma logBeforeAfterReport_frame p after w :
  updater_view (snd (logBeforeAfterReport p after w)) = updater_view w /\
  mail_diagnostics (snd (logBeforeAfterReport p after w)) = mail_diagnostics w.
Proof.
  unfold logBeforeAfterReport, await, logger, modify, bind, ret, throw.
  destruct (previous_query p); [destruct (_ =? _)%nat|]; split; reflexivity.
Qed.

(** The whole effect of [diagnose]. *)
Lemma diagnose_full beforeAfter p smtp imap ssl roundcube w :
  let cs := [unwrap smtp; unwrap imap; unwrap ssl; unwrap roundcube] in
  exists w',
    diagnose beforeAfter p smtp imap ssl roundcube w =
      (match beforeAfter, previous_query p with
       | true, Throw message => Throw message
       | _, _ => Ret {| timestamp := report_time p;
                        overall := overall_of cs;
                        checks := cs;
                        repairsAttempted := repair_tags cs |}
       end, w') /\
    updater_view w' = updater_view w /\
    mail_diagnostics w' =
      (mail_diagnostics w ++ map diagnostics_row (filter (persisted p) cs))%list.
Proof.
  intros cs. unfold diagnose. fold cs.
  destruct (repairFailed_run cs w) as (w1 & E1 & V1 & D1).
  destruct (persist_all_run p cs w1) as (w2 & E2 & V2 & D2).
  rewrite (bind_Ret E1), (bind_Ret E2).
  unfold bind at 1. unfold logger at 1. unfold modify at 1.
  set (report := {| timestamp := report_time p; overall := overall_of cs;
                    checks := cs; repairsAttempted := repair_tags cs |}).
  set (w3 := add_log LLog _ w2).
  assert (V3 : updater_view w3 = updater_view w)
    by (subst w3; rewrite updater_view_add_log; congruence).
  assert (D3 : mail_diagnostics w3 =
               (mail_diagnostics w ++ map diagnostics_row (filter (persisted p) cs))%list)
    by (subst w3; cbn [mail_diagnostics add_log]; congruence).
  destruct beforeAfter.
  - destruct (logBeforeAfterReport_frame p report w3) as [V4 D4].
    destruct (previous_query p) as [rows|message] eqn:Q.
    + destruct (logBeforeAfterReport_returns p report rows w3 Q) as (w4 & E4 & _).
      rewrite E4 in V4, D4. cbn [snd] in V4, D4.
      exists w4. split; [rewrite (bind_Ret E4); reflexivity|]. split; congruence.
    + exists w3. split; [|split; assumption].
      rewrite (bind_Throw (logBeforeAfterReport_throws p report message w3 Q)).
      reflexivity.
  - exists w3. split; [reflexivity|]. split; assumption.
Qed.

Lemma runFullDiagnostics_full beforeAfter p w :
  exists w',
    runFullDiagnostics beforeAfter p w =
      (match beforeAfter, previous_query p with
       | true, Throw message => Throw message
       | _, _ => Ret {| timestamp := report_time p;
                        overall := probed_overall p;
                        checks := registered_checks p;
                        repairsAttempted := repair_tags (registered_checks p) |}
       end, w') /\
    updater_view w' = updater_view w /\
    mail_diagnostics w' =
      (mail_diagnostics w
         ++ map diagnostics_row (filter (persisted p) (registered_checks p)))%list.
Proof.
  unfold runFullDiagnostics.
  destruct (diagnose_full beforeAfter p
              (Fulfilled (checkSmtp p)) (Fulfilled (checkImap p))
              (Fulfilled (checkSslCertificate p))
              (Fulfilled (checkRoundcubeHealth p))
              (add_log LLog "Starting full mail diagnostics..." w))
    as (w' & E & V & D).
  exists w'. split; [|split].
  - unfold bind at 1. unfold logger, modify. exact E.
  - rewrite V. reflexivity.
  - rewrite D. reflexivity.
Qed.

Lemma status_eqb_eq a b : status_eqb a b = true <-> a = b.
Proof. destruct a, b; cbn; split; congruence. Qed.

Lemma exists_status cs s :
  existsb (fun c => status_eqb (status c) s) cs = true
  <-> exists c, In c cs /\ status c = s.
Proof.
  rewrite existsb_exists. split; intros (c & Hin & H); exists c; split;
    try assumption; now apply status_eqb_eq.
Qed.

Lemma overall_of_spec cs :
  (overall_of cs = Error <-> exists c, In c cs /\ status c = Error) /\
  (overall_of cs = Warning <->
     (forall c, In c cs -> status c <> Error) /\
     exists c, In c cs /\ status c = Warning) /\
  (overall_of cs = Ok <-> forall c, In c cs -> status c = Ok).
Proof.
  unfold overall_of.
  pose proof (exists_status cs Error) as HE.
  pose proof (exists_status cs Warning) as HW.
  destruct (existsb (fun c => status_eqb (status c) Error) cs).
  - destruct (proj1 HE eq_refl) as (c & Hin & Hs).
    split; [|split].
    + split; [intros _; exists c; split; assumption|reflexivity].
    + split; [discriminate|]. intros [H _]. exfalso. exact (H c Hin Hs).
    + split; [discriminate|]. intros H. specialize (H c Hin). congruence.
  - assert (NE : forall c, In c cs -> status c <> Error).
    { intros c Hin Hs. assert (X : false = true); [|discriminate X].
      apply HE. exists c. split; assumption. }
    destruct (existsb (fun c => status_eqb (status c) Warning) cs).
    + destruct (proj1 HW eq_refl) as (c & Hin & Hs).
      split; [|split].
      * split; [discriminate|]. intros (c' & Hin' & Hs'). exfalso. exact (NE c' Hin' Hs').
      * split; [|reflexivity]. intros _. split; [exact NE|]. exists c. split; assumption.
      * split; [discriminate|]. intros H. specialize (H c Hin). congruence.
    + assert (NW : forall c, In c cs -> status c <> Warning).
      { intros c Hin Hs. assert (X : false = true); [|discriminate X].
        apply HW. exists c. split; assumption. }
      split; [|split].
      * split; [discriminate|]. intros (c & Hin & Hs). exfalso. exact (NE c Hin Hs).
      * split; [discriminate|]. intros (_ & c & Hin & Hs). exfalso. exact (NW c Hin Hs).
      * split; [|reflexivity]. intros _ c Hin.
        specialize (NE c Hin). specialize (NW c Hin). destruct (status c); congruence.
Qed.

Lemma report_of_run beforeAfter p w report :
  fst (runFullDiagnostics beforeAfter p w) = Ret report ->
  report = {| timestamp := report_time p;
              overall := probed_overall p;
              checks := registered_checks p;
              repairsAttempted := repair_tags (registered_checks p) |}.
Proof.
  destruct (runFullDiagnostics_full beforeAfter p w) as (w' & E & _).
  rewrite E. cbn [fst].
  destruct beforeAfter; [destruct (previous_query p)|]; intros H;
    inversion H; reflexivity.
Qed.

(** X1: in the report of a diagnostics run the overall status is error
    exactly when some check is in error, warning exactly when none is in
    error and some check warns, and ok exactly when every check is ok. *)
Theorem overall_is_worst_status beforeAfter p w report :
  fst (runFullDiagnostics beforeAfter p w) = Ret report ->
  (overall report = Error <->
     exists c, In c (checks report) /\ status c = Error) /\
  (overall report = Warning <->
     (forall c, In c (checks report) -> status c <> Error) /\
     exists c, In c (checks report) /\ status c = Warning) /\
  (overall report = Ok <-> forall c, In c (checks report) -> status c = Ok).
Proof.
  intros H. rewrite (report_of_run _ _ _ _ H). cbn [overall checks].
  apply overall_of_spec.
Qed.

Lemma overall_is_worst_status_witness :
  exists report,
    fst (runFullDiagnostics false (probes_with_cert_days 5) initial_world) = Ret report /\
    overall report = Error.
Proof.
  eexists. split; [reflexivity|].
  apply (overall_is_worst_status false (probes_with_cert_days 5) initial_world _ eq_refl).
  exists (checkSslCertificate (probes_with_cert_days 5)).
  split; [right; right; left; reflexivity|reflexivity].
Defined.

(** X2: the overall status does not depend on the order of the checks. *)
Theorem overall_of_permutation cs cs' :
  Permutation cs cs' -> overall_of cs = overall_of cs'.
Proof.
  intros P.
  assert (I : forall c, In c cs <-> In c cs').
  { intros c. split; [apply Permutation_in; assumption|].
    apply Permutation_in. now apply Permutation_sym. }
  destruct (overall_of_spec cs) as (E1 & W1 & O1).
  destruct (overall_of_spec cs') as (E2 & W2 & O2).
  destruct (overall_of cs') eqn:R.
  - apply O1. intros c Hin. apply (proj1 O2 eq_refl). now apply I.
  - apply W1. destruct (proj1 W2 eq_refl) as (NE & c & Hin & Hs). split.
    + intros c' Hin'. apply NE. now apply I.
    + exists c. split; [now apply I|assumption].
  - apply E1. destruct (proj1 E2 eq_refl) as (c & Hin & Hs).
    exists c. split; [now apply I|assumption].
Qed.

Lemma overall_of_permutation_witness :
  overall_of (rev (registered_checks (probes_with_cert_days 10))) = Warning.
Proof.
  rewrite <- (overall_of_permutation (registered_checks (probes_with_cert_days 10))
                (rev (registered_checks (probes_with_cert_days 10)))).
  - reflexivity.
  - apply Permutation_rev.
Defined.

Lemma repair_tags_registered p :
  repair_tags (registered_checks p) =
    ((if is_error (checkSmtp p) then ["smtp-transporter-reinitialised"] else [])
       ++ (if is_error (checkImap p) then ["imap-connection-pool-reset"] else [])
       ++ (if is_error (checkSslCertificate p) then ["ssl-alert-logged"] else [])
       ++ (if is_error (checkRoundcubeHealth p)
           then ["roundcube-container-auto-restart-pending"] else []))%list.
Proof.
  pose proof (registered_check_types p) as T. unfold registered_checks in *.
  cbn [map] in T. inversion T as [[T1 T2 T3 T4]].
  cbn [repair_tags]. rewrite T1, T2, T3, T4. cbn [repair_tag String.eqb Ascii.eqb Bool.eqb].
  destruct (is_error (checkSmtp p)), (is_error (checkImap p)),
    (is_error (checkSslCertificate p)), (is_error (checkRoundcubeHealth p));
    reflexivity.
Qed.

Lemma repair_tags_settled s type tag rest :
  settles_as s type ->
  repair_tag type = Some tag ->
  repair_tags (unwrap s :: rest) = (settled_repair s tag ++ repair_tags rest)%list.
Proof.
  intros Hs Ht. destruct s as [value|reason]; cbn [unwrap repair_tags settled_repair].
  - cbn [settles_as] in Hs. rewrite Hs, Ht. destruct (is_error value); reflexivity.
  - reflexivity.
Qed.

(** X3: the report of a run names one repair for every registered check
    that is in error, in the order of the checks, and none for the others.
    The same holds from any four settled promises of the four checks, in
    any mix and with or without the comparison: a fulfilled promise with a
    result in error gives the repair of its check, a rejected promise gives
    none, although the result that stands for it (check type "unknown") is
    in error.  For results of any type at all, the repairs are those that
    [attemptRepair] has for the types of the results in error. *)
Theorem repairs_follow_failed_checks :
  (forall beforeAfter p w report,
      fst (runFullDiagnostics beforeAfter p w) = Ret report ->
      repairsAttempted report =
        ((if is_error (checkSmtp p) then ["smtp-transporter-reinitialised"] else [])
           ++ (if is_error (checkImap p) then ["imap-connection-pool-reset"] else [])
           ++ (if is_error (checkSslCertificate p) then ["ssl-alert-logged"] else [])
           ++ (if is_error (checkRoundcubeHealth p)
               then ["roundcube-container-auto-restart-pending"] else []))%list) /\
  (forall beforeAfter p smtp imap ssl roundcube w report,
      settles_as smtp "smtp_send" ->
      settles_as imap "imap_login" ->
      settles_as ssl "ssl_cert" ->
      settles_as roundcube "roundcube_health" ->
      fst (diagnose beforeAfter p smtp imap ssl roundcube w) = Ret report ->
      repairsAttempted report =
        (settled_repair smtp "smtp-transporter-reinitialised"
           ++ settled_repair imap "imap-connection-pool-reset"
           ++ settled_repair ssl "ssl-alert-logged"
           ++ settled_repair roundcube "roundcube-container-auto-restart-pending")%list) /\
  (forall beforeAfter p smtp imap ssl roundcube w report,
      fst (diagnose beforeAfter p smtp imap ssl roundcube w) = Ret report ->
      checks report = [unwrap smtp; unwrap imap; unwrap ssl; unwrap roundcube] /\
      repairsAttempted report = repair_tags (checks report)) /\
  (forall reason,
      status (unwrap (Rejected reason)) = Error /\
      checkType (unwrap (Rejected reason)) = "unknown" /\
      repair_tag (checkType (unwrap (Rejected reason))) = None).
Proof.
  assert (G : forall beforeAfter p smtp imap ssl roundcube w report,
             fst (diagnose beforeAfter p smtp imap ssl roundcube w) = Ret report ->
             report =
               {| timestamp := report_time p;
                  overall := overall_of [unwrap smtp; unwrap imap; unwrap ssl;
                                         unwrap roundcube];
                  checks := [unwrap smtp; unwrap imap; unwrap ssl; unwrap roundcube];
                  repairsAttempted :=
                    repair_tags [unwrap smtp; unwrap imap; unwrap ssl;
                                 unwrap roundcube] |}).
  { intros b p smtp imap ssl roundcube w report.
    destruct (diagnose_full b p smtp imap ssl roundcube w) as (w' & E & _).
    rewrite E. cbn [fst].
    destruct b; [destruct (previous_query p)|]; intros H; inversion H; reflexivity. }
  split; [|split; [|split]].
  - intros b p w report H. rewrite (report_of_run _ _ _ _ H).
    cbn [repairsAttempted]. apply repair_tags_registered.
  - intros b p smtp imap ssl roundcube w report Hs Hi Hc Hr H.
    rewrite (G _ _ _ _ _ _ _ _ H). cbn [repairsAttempted].
    rewrite (repair_tags_settled smtp _ _ _ Hs eq_refl).
    rewrite (repair_tags_settled imap _ _ _ Hi eq_refl).
    rewrite (repair_tags_settled ssl _ _ _ Hc eq_refl).
    rewrite (repair_tags_settled roundcube _ _ _ Hr eq_refl).
    cbn [repair_tags]. rewrite app_nil_r. reflexivity.
  - intros b p smtp imap ssl roundcube w report H.
    rewrite (G _ _ _ _ _ _ _ _ H). split; reflexivity.
  - intros reason. repeat split; reflexivity.
Qed.

Lemma repairs_follow_failed_checks_witness :
  let p := probes_with_cert_days 5 in
  exists report,
    fst (diagnose true p (Rejected (Some "boom")) (Fulfilled (checkImap p))
           (Fulfilled (checkSslCertificate p)) (Rejected None) initial_world)
    = Ret report /\
    repairsAttempted report = ["ssl-alert-logged"].
Proof.
  cbv zeta. eexists. split; [reflexivity|].
  refine (proj1 (proj2 repairs_follow_failed_checks) true (probes_with_cert_days 5)
            (Rejected (Some "boom")) (Fulfilled (checkImap (probes_with_cert_days 5)))
            (Fulfilled (checkSslCertificate (probes_with_cert_days 5))) (Rejected None)
            initial_world _ _ _ _ _ eq_refl); exact I || reflexivity.
Defined.



(** X5: a diagnostics run, with or without the comparison and whether it
    returns or throws, changes neither the maintenance flag nor the queue,
    the update history, the busy flag or the progress record. *)
Theorem run_leaves_updater_state beforeAfter p w :
  let w' := snd (runFullDiagnostics beforeAfter p w) in
  maintenanceMode w' = maintenanceMode w /\
  queuePaused w' = queuePaused w /\
  update_history w' = update_history w /\
  isUpdating w' = isUpdating w /\
  updateProgress w' = updateProgress w.
Proof.
  cbv zeta. destruct (runFullDiagnostics_full beforeAfter p w) as (w' & E & V & _).
  rewrite E. cbn [snd]. unfold updater_view in V. inversion V. repeat split; reflexivity.
Qed.

(** X6: the comparison with the previous run changes nothing but the log:
    when its query answers, a run with the comparison returns the same
    report and leaves the same rows as a run without it. *)
Theorem comparison_only_logs p w rows :
  previous_query p = Ret rows ->
  fst (runFullDiagnostics true p w) = fst (runFullDiagnostics false p w) /\
  mail_diagnostics (snd (runFullDiagnostics true p w))
  = mail_diagnostics (snd (runFullDiagnostics false p w)).
Proof.
  intros Q.
  destruct (runFullDiagnostics_full true p w) as (w1 & E1 & _ & D1).
  destruct (runFullDiagnostics_full false p w) as (w2 & E2 & _ & D2).
  rewrite E1, E2, Q. cbn [fst snd]. split; [reflexivity|congruence].
Qed.

Lemma comparison_only_logs_witness :
  fst (runFullDiagnostics true healthy_probes initial_world)
  = fst (runFullDiagnostics false healthy_probes initial_world).
Proof.
  exact (proj1 (comparison_only_logs healthy_probes initial_world [] eq_refl)).
Defined.

(** X7: in maintenance mode the scheduled diagnostics do nothing but write
    one log line; out of maintenance mode they run the checks without the
    comparison, persist them and never throw. *)
Theorem scheduled_diagnostics_respect_maintenance p w :
  (maintenanceMode w = true ->
   runScheduledDiagnostics p w =
     (Ret tt, add_log LLog "Skipping diagnostics – maintenance mode active" w)) /\
  (maintenanceMode w = false ->
   fst (runScheduledDiagnostics p w) = Ret tt /\
   snd (runScheduledDiagnostics p w) = snd (runFullDiagnostics false p w)).
Proof.
  unfold runScheduledDiagnostics, bind, gets. split; intros H; rewrite H.
  - reflexivity.
  - destruct (runFullDiagnostics_full false p w) as (w' & E & _).
    rewrite E. split; reflexivity.
Qed.

Lemma scheduled_diagnostics_respect_maintenance_witness :
  mail_diagnostics (snd (runScheduledDiagnostics healthy_probes busy_world)) = [] /\
  length (mail_diagnostics (snd (runScheduledDiagnostics healthy_probes initial_world)))
  = 4%nat.
Proof.
  destruct (scheduled_diagnostics_respect_maintenance healthy_probes busy_world) as [S _].
  destruct (scheduled_diagnostics_respect_maintenance healthy_probes initial_world)
    as [_ R].
  rewrite (S eq_refl). rewrite (proj2 (R eq_refl)). split; reflexivity.
Defined.

(** ** The comparison with the previous run *)

Lemma prevMap_absent rows key :
  (forall row, In row rows -> fst row <> key) -> prevMap rows key = None.
Proof.
  induction rows as [|[k v] rows IH]; intros H; cbn [prevMap]; [reflexivity|].
  rewrite IH by (intros row Hin; apply H; now right).
  destruct (String.eqb_spec k key) as [->|]; [|reflexivity].
  exfalso. apply (H (key, v)); [now left|reflexivity].
Qed.

(** X8: of the previous rows with one check type the last one in the
    answer of the query decides: a row stands for its check type when no
    later row has that type.  A type without a row has no previous status. *)
Theorem prevMap_last_row_wins before key value after :
  (forall row, In row after -> fst row <> key) ->
  prevMap (before ++ (key, value) :: after) key = Some value.
Proof.
  intros H. induction before as [|[k v] before IH]; cbn [app prevMap].
  - rewrite (prevMap_absent after key H). now rewrite String.eqb_refl.
  - now rewrite IH.
Qed.

Lemma prevMap_last_row_wins_witness :
  prevMap [("ssl_cert", "ok"); ("smtp_send", "ok"); ("ssl_cert", "error");
           ("imap_login", "ok")] "ssl_cert" = Some "error".
Proof.
  apply (prevMap_last_row_wins [("ssl_cert", "ok"); ("smtp_send", "ok")]
           "ssl_cert" "error" [("imap_login", "ok")]).
  intros row [<-|[]]. discriminate.
Defined.

Lemma status_string_not_unknown s : String.eqb "unknown" (status_string s) = false.
Proof. destruct s; reflexivity. Qed.

Lemma diffLines_nil prev cs :
  diffLines prev cs = [] <->
  forall c, In c cs -> prevMap prev (checkType c) = Some (status_string (status c)).
Proof.
  induction cs as [|c cs IH]; cbn [diffLines].
  - split; [intros _ c []|reflexivity].
  - destruct (prevMap prev (checkType c)) as [before|] eqn:P; cbn [nullish].
    + destruct (String.eqb_spec before (status_string (status c))) as [->|Hne];
        cbn [negb].
      * rewrite IH. split.
        -- intros H c' [<-|Hin]; [exact P|now apply H].
        -- intros H c' Hin. apply H. now right.
      * split; [discriminate|]. intros H. specialize (H c (or_introl eq_refl)).
        rewrite P in H. congruence.
    + rewrite status_string_not_unknown. cbn [negb].
      split; [discriminate|]. intros H. specialize (H c (or_introl eq_refl)).
      rewrite P in H. discriminate H.
Qed.

(** X9: when the query for the previous rows answers, the comparison logs
    "No status changes detected" exactly when every check of the report has
    a previous row with the status it has now; in every other case it logs
    the list of changes. *)
Theorem no_change_logged_iff_same_status p after w rows :
  previous_query p = Ret rows ->
  (logs (snd (logBeforeAfterReport p after w)) =
     (logs w ++ [(LLog, "Before/After: No status changes detected")])%list
   <-> forall c, In c (checks after) ->
                 prevMap rows (checkType c) = Some (status_string (status c))) /\
  ((exists c, In c (checks after) /\
              prevMap rows (checkType c) <> Some (status_string (status c))) ->
   logs (snd (logBeforeAfterReport p after w)) =
     (logs w ++ [(LLog, ("Before/After diff:" ++ nl
                           ++ join nl (diffLines rows (checks after)))%string)])%list).
Proof.
  intros Q. unfold logBeforeAfterReport, await, bind, ret, logger, modify.
  rewrite Q. rewrite <- diffLines_nil.
  destruct (diffLines rows (checks after)) as [|line lines] eqn:D; cbn [length Nat.eqb snd].
  - split; [split; reflexivity|].
    intros (c & Hin & Hne). exfalso. apply Hne.
    apply (proj1 (diffLines_nil rows (checks after)) D c Hin).
  - split; [|intros _; reflexivity]. split; [|discriminate].
    cbn [logs add_log]. intros H. apply app_inv_head in H. discriminate H.
Qed.

Lemma no_change_logged_iff_same_status_witness :
  let after := {| timestamp := 0; overall := Ok;
                  checks := [checkSmtp healthy_probes]; repairsAttempted := [] |} in
  logs (snd (logBeforeAfterReport healthy_probes after initial_world))
  = [(LLog, "Before/After diff:" ++ nl ++ "  [smtp_send] unknown → ok")].
Proof.
  cbv zeta.
  refine (proj2 (no_change_logged_iff_same_status healthy_probes _ initial_world []
                   eq_refl) _).
  eexists. split; [left; reflexivity|discriminate].
Defined.

(** X10: without previous rows every check of the report is listed as a
    change from "unknown" to its status. *)
Theorem first_run_lists_every_check cs :
  diffLines [] cs =
    map (fun c => "  [" ++ checkType c ++ "] unknown → " ++ status_string (status c)) cs.
Proof.
  induction cs as [|c cs IH]; cbn [diffLines map]; [reflexivity|].
  cbn [prevMap nullish]. rewrite status_string_not_unknown. cbn [negb].
  now rewrite IH.
Qed.

(** ** The summary for the dashboard *)

Lemma exists_string_status rows s :
  existsb (fun r => String.eqb (s_status r) s) rows = true
  <-> exists r, In r rows /\ s_status r = s.
Proof.
  rewrite existsb_exists. split; intros (r & Hin & H); exists r; split;
    try assumption; now apply String.eqb_eq.
Qed.

(** X11: the summary passes an exception of its query on to the caller.
    When the query answers, the status is "error" exactly when some row has
    the status "error", "warning" exactly when none has and some row has the
    status "warning", and "ok" otherwise, in particular for an empty table;
    [lastChecked] is the time of the first row, or the current time when
    there is no row; the state is not changed. *)
Theorem latest_summary q w :
  match summary_query q with
  | Throw message => getLatestSummary q w = (Throw message, w)
  | Ret rows =>
      exists summary,
        getLatestSummary q w = (Ret summary, w) /\
        summary_checks summary = rows /\
        (summary_status summary = "error" <->
           exists r, In r rows /\ s_status r = "error") /\
        (summary_status summary = "warning" <->
           (forall r, In r rows -> s_status r <> "error") /\
           exists r, In r rows /\ s_status r = "warning") /\
        (summary_status summary = "ok" <->
           forall r, In r rows -> s_status r <> "error" /\ s_status r <> "warning") /\
        lastChecked summary =
          match rows with
          | [] => summary_now q
          | first :: _ => checked_at first
          end
  end.
Proof.
  unfold getLatestSummary, bind, await, ret, throw.
  destruct (summary_query q) as [rows|message]; [|reflexivity].
  eexists. split; [reflexivity|]. cbn [summary_checks summary_status lastChecked].
  split; [reflexivity|].
  pose proof (exists_string_status rows "error") as HE.
  pose proof (exists_string_status rows "warning") as HW.
  assert (L : nullish (option_map checked_at (hd_error rows)) (summary_now q) =
              match rows with [] => summary_now q | first :: _ => checked_at first end)
    by (destruct rows; reflexivity).
  destruct (existsb (fun r => String.eqb (s_status r) "error") rows).
  - destruct (proj1 HE eq_refl) as (r & Hin & Hs).
    split; [|split; [|split]]; try exact L.
    + split; [intros _; exists r; split; assumption|reflexivity].
    + split; [discriminate|]. intros [H _]. exfalso. exact (H r Hin Hs).
    + split; [discriminate|]. intros H. exfalso. exact (proj1 (H r Hin) Hs).
  - assert (NE : forall r, In r rows -> s_status r <> "error").
    { intros r Hin Hs. assert (X : false = true); [|discriminate X].
      apply HE. exists r. split; assumption. }
    destruct (existsb (fun r => String.eqb (s_status r) "warning") rows).
    + destruct (proj1 HW eq_refl) as (r & Hin & Hs).
      split; [|split; [|split]]; try exact L.
      * split; [discriminate|]. intros (r' & Hin' & Hs'). exfalso. exact (NE r' Hin' Hs').
      * split; [|reflexivity]. intros _. split; [exact NE|]. exists r. split; assumption.
      * split; [discriminate|]. intros H. exfalso. exact (proj2 (H r Hin) Hs).
    + assert (NW : forall r, In r rows -> s_status r <> "warning").
      { intros r Hin Hs. assert (X : false = true); [|discriminate X].
        apply HW. exists r. split; assumption. }
      split; [|split; [|split]]; try exact L.
      * split; [discriminate|]. intros (r & Hin & Hs). exfalso. exact (NE r Hin Hs).
      * split; [discriminate|]. intros (_ & r & Hin & Hs). exfalso. exact (NW r Hin Hs).
      * split; [|reflexivity]. intros _ r Hin. split; [now apply NE|now apply NW].
Qed.

(** ** The single checks *)

(** X12: the web front end is ok exactly for the status code 200, warns
    for every other code below 500, and is in error from 500 on; a request
    that fails or times out gives an error with the message of the failure. *)
Theorem roundcube_health_status p :
  (forall code,
      http_get p = Ret code ->
      (status (checkRoundcubeHealth p) = Ok <-> code = 200) /\
      (status (checkRoundcubeHealth p) = Warning <-> code <> 200 /\ code < 500) /\
      (status (checkRoundcubeHealth p) = Error <-> 500 <= code)) /\
  (forall message,
      http_get p = Throw message ->
      status (checkRoundcubeHealth p) = Error /\
      errorMsg (checkRoundcubeHealth p) = Some message).
Proof.
  unfold checkRoundcubeHealth. split.
  - intros code ->. cbn [status].
    destruct (Z.eqb_spec code 200), (Z.ltb_spec code 500);
      repeat split; intros; try lia; try congruence; try reflexivity;
      try discriminate.
  - intros message ->. split; reflexivity.
Qed.

Lemma roundcube_health_status_witness :
  status (checkRoundcubeHealth healthy_probes) = Ok.
Proof.
  destruct (roundcube_health_status healthy_probes) as [H _].
  apply (proj1 (H 200 eq_refl)). reflexivity.
Defined.

(** X13: without a user or a password (undefined or empty) the SMTP and
    the IMAP check warn without contacting the server, whatever the server
    would answer; with both, the check is ok exactly when its session goes
    through, and in error with the message of the exception otherwise. *)
Theorem credentials_gate_the_probe p :
  (falsy (config_string p "SMTP_USER") || falsy (config_string p "SMTP_PASS") = true ->
   status (checkSmtp p) = Warning /\
   errorMsg (checkSmtp p) = Some "SMTP credentials not configured") /\
  (falsy (config_string p "SMTP_USER") || falsy (config_string p "SMTP_PASS") = false ->
   (status (checkSmtp p) = Ok <-> smtp_verify p = None) /\
   (forall message, smtp_verify p = Some message ->
                    status (checkSmtp p) = Error /\
                    errorMsg (checkSmtp p) = Some message)) /\
  (falsy (config_string p "IMAP_USER") || falsy (config_string p "IMAP_PASS") = true ->
   status (checkImap p) = Warning /\
   errorMsg (checkImap p) = Some "IMAP credentials not configured") /\
  (falsy (config_string p "IMAP_USER") || falsy (config_string p "IMAP_PASS") = false ->
   (status (checkImap p) = Ok <->
      imap_connect p = None /\ (exists n, imap_getBoxes p = Ret n) /\ imap_end p = None) /\
   (forall message, imap_session p = Throw message ->
                    status (checkImap p) = Error /\
                    errorMsg (checkImap p) = Some message)).
Proof.
  unfold checkSmtp, checkImap. split; [|split; [|split]].
  - intros ->. split; reflexivity.
  - intros ->. split.
    + destruct (smtp_verify p); cbn [status]; split; congruence.
    + intros message ->. split; reflexivity.
  - intros ->. split; reflexivity.
  - intros ->. split.
    + unfold imap_session.
      destruct (imap_connect p), (imap_getBoxes p) as [n|], (imap_end p);
        cbn [status]; split;
        try discriminate; try (intros (A & [m B] & C); discriminate);
        try (intros (A & [m B] & C); congruence).
      intros _. split; [reflexivity|]. split; [exists n; reflexivity|reflexivity].
    + intros message ->. split; reflexivity.
Qed.

Lemma credentials_gate_the_probe_witness :
  status (checkSmtp probes_without_smtp_credentials) = Warning /\
  status (checkImap healthy_probes) = Ok.
Proof.
  destruct (credentials_gate_the_probe probes_without_smtp_credentials)
    as (S & _).
  destruct (credentials_gate_the_probe healthy_probes) as (_ & _ & _ & I).
  split.
  - apply S. reflexivity.
  - apply (proj1 (I eq_refl)). split; [reflexivity|]. split; [exists 5; reflexivity|reflexivity].
Defined.

(** ** Further properties of the update cycle *)

Lemma enterMaintenanceMode_throws inp message w :
  queue_pause inp = Some message ->
  AutoUpdaterService.enterMaintenanceMode inp w =
    (Throw message,
     add_log LLog "Mail diagnostics paused – maintenance mode ON"
       (set_maintenanceMode true w)).
Proof.
  intros H. unfold AutoUpdaterService.enterMaintenanceMode. rewrite H. reflexivity.
Qed.

(** The install loop, with everything that it leaves alone. *)
Lemma installPending_full inp pending : forall progressStep f,
  exists f',
    installPending inp pending progressStep f = (Ret tt, f') /\
    f_results f' = (f_results f ++ map (installUpdate inp) pending)%list /\
    update_history (world f') =
      (update_history (world f)
         ++ map history_row (filter (saved inp) (map (installUpdate inp) pending)))%list /\
    maintenanceMode (world f') = maintenanceMode (world f) /\
    queuePaused (world f') = queuePaused (world f) /\
    isUpdating (world f') = isUpdating (world f) /\
    mail_diagnostics (world f') = mail_diagnostics (world f).
Proof.
  induction pending as [|check rest IH]; intros progressStep f.
  - exists f. cbn. rewrite !app_nil_r. repeat split; reflexivity.
  - cbn [installPending].
    rewrite (bind_Ret (inWorld_run (setProgress_run _ _ _ _ _))).
    unfold push_result at 1. unfold bind at 1. unfold modify at 1.
    rewrite (bind_Ret (inWorld_run (saveUpdateHistory_run _ _ _))).
    match goal with
    | |- context [installPending inp rest ?s ?g] =>
        destruct (IH s g) as (f' & E & R & H & Vm & Vq & Vu & Vd)
    end.
    exists f'. split; [exact E|]. cbn [f_results world] in R, H, Vm, Vq, Vu, Vd.
    split; [rewrite R, <- app_assoc; reflexivity|].
    split.
    { rewrite H. cbn [map filter]. unfold saved at 2.
      destruct (history_query inp (installUpdate inp check));
        cbn [map update_history add_history_row add_log set_updateProgress];
        [reflexivity|rewrite <- app_assoc; reflexivity]. }
    rewrite Vm, Vq, Vu, Vd.
    destruct (history_query inp (installUpdate inp check)); repeat split; reflexivity.
Qed.

(** What the [try] block does, path by path. *)
Lemma cycle_cases inp f :
  exists r f',
    cycle inp f = (r, f') /\
    isUpdating (world f') = isUpdating (world f) /\
    match pending_of inp with
    | [] =>
        r = Ret {| results := f_results f; diagnosticsStatus := "ok" |} /\
        f_results f' = f_results f /\
        update_history (world f') = update_history (world f) /\
        mail_diagnostics (world f') = mail_diagnostics (world f) /\
        maintenanceMode (world f') = maintenanceMode (world f) /\
        queuePaused (world f') = queuePaused (world f) /\
        updateProgress (world f') =
          {| p_status := Done; p_message := "All components are up to date.";
             p_progress := 100; p_component := None |}
    | _ :: _ =>
        match queue_pause inp with
        | Some message =>
            r = Throw message /\
            f_results f' = f_results f /\
            update_history (world f') = update_history (world f) /\
            mail_diagnostics (world f') = mail_diagnostics (world f) /\
            maintenanceMode (world f') = true /\
            queuePaused (world f') = queuePaused (world f)
        | None =>
            f_results f' = (f_results f ++ install_results inp)%list /\
            update_history (world f') =
              (update_history (world f) ++ installed_rows inp)%list /\
            match queue_resume_after_install inp with
            | Some message =>
                r = Throw message /\
                mail_diagnostics (world f') = mail_diagnostics (world f) /\
                maintenanceMode (world f') = true /\
                queuePaused (world f') = true
            | None =>
                maintenanceMode (world f') = false /\
                queuePaused (world f') = false /\
                match previous_query (diagnostics_first inp) with
                | Throw message => r = Throw message
                | Ret _ =>
                    exists reruns,
                      0 <= reruns <= 3 /\
                      r = Ret {| results := (f_results f ++ install_results inp)%list;
                                 diagnosticsStatus :=
                                   status_string
                                     (probed_overall (probes_of_run inp reruns)) |} /\
                      p_progress (updateProgress (world f')) = 100 /\
                      p_status (updateProgress (world f')) =
                        match probed_overall (probes_of_run inp reruns) with
                        | Ok => Done
                        | Warning | Error => Failed
                        end
                end
            end
        end
    end.
Proof.
  unfold installed_rows, install_results.
  unfold cycle. fold (pending_of inp).
  rewrite (bind_Ret (inWorld_run (setProgress_run _ _ _ _ _))).
  destruct (pending_of inp) as [|check rest] eqn:Ep.
  { cbn [length Nat.eqb].
    rewrite (bind_Ret (inWorld_run (setProgress_run _ _ _ _ _))).
    eexists. eexists. split; [reflexivity|]. repeat split; reflexivity. }
  cbn [length Nat.eqb].
  rewrite (bind_Ret (inWorld_run (setProgress_run _ _ _ _ _))).
  destruct (queue_pause inp) as [message|] eqn:Hpause.
  { rewrite (bind_Throw (inWorld_run (enterMaintenanceMode_throws _ _ _ Hpause))).
    eexists. eexists. split; [reflexivity|]. repeat split; reflexivity. }
  rewrite (bind_Ret (inWorld_run (enterMaintenanceMode_run _ _ Hpause))).
  match goal with
  | |- context [bind (installPending inp ?p ?s) _ ?g] =>
      destruct (installPending_full inp p s g)
        as (f1 & E1 & R1 & H1 & Vm & Vq & Vu & Vd)
  end.
  rewrite (bind_Ret E1).
  rewrite (bind_Ret (inWorld_run (setProgress_run _ _ _ _ _))).
  cbn [f_results world update_history mail_diagnostics maintenanceMode queuePaused
         isUpdating add_log set_updateProgress set_queuePaused set_maintenanceMode]
    in R1, H1, Vm, Vq, Vu, Vd.
  destruct (queue_resume_after_install inp) as [message|].
  { rewrite (bind_Throw (inWorld_run (exitMaintenanceMode_throws _ _))).
    eexists. eexists. split; [reflexivity|].
    cbn [world f_results isUpdating update_history mail_diagnostics maintenanceMode
           queuePaused add_log set_updateProgress].
    repeat split; assumption. }
  rewrite (bind_Ret (inWorld_run (exitMaintenanceMode_run _))).
  match goal with
  | |- context [bind (inWorld (runFullDiagnostics true ?p)) _ ?g] =>
      destruct (runFullDiagnostics_run true p (world g)) as (tags & w2 & V2 & E2)
  end.
  assert (V2' : maintenanceMode w2 = false /\ queuePaused w2 = false /\
                update_history w2 = update_history (world f1) /\
                isUpdating w2 = isUpdating (world f1)).
  { apply settled_view_of_updater_view in V2. unfold settled_view in V2.
    cbn in V2. inversion V2. repeat split; reflexivity. }
  clear V2. destruct V2' as (V2m & V2q & V2h & V2u).
  destruct (previous_query (diagnostics_first inp)) as [rows|message].
  2:{ rewrite (bind_Throw (inWorld_run E2)).
      eexists. eexists. split; [reflexivity|].
      cbn [world f_results]. split; [congruence|]. split; [exact R1|].
      split; [congruence|]. repeat split; assumption. }
  rewrite (bind_Ret (inWorld_run E2)).
  match goal with
  | |- context [bind (inWorld (repairLoop 3 inp 0 ?r)) _ ?g] =>
      destruct (repairLoop_run inp 3 0 r (world g))
        as (final & n & w3 & E3 & Hn & Hf & Hk & Hl & V3)
  end.
  { lia. }
  { cbn. lia. }
  { reflexivity. }
  rewrite (bind_Ret (inWorld_run E3)).
  cbn [fst]. rewrite Hf.
  rewrite (bind_Ret (inWorld_run (setProgress_run _ _ _ _ _))).
  assert (V3' : maintenanceMode w3 = maintenanceMode w2 /\ queuePaused w3 = queuePaused w2 /\
                update_history w3 = update_history w2 /\
                isUpdating w3 = isUpdating w2).
  { unfold settled_view in V3. cbn in V3. inversion V3. repeat split; reflexivity. }
  clear V3. destruct V3' as (V3m & V3q & V3h & V3u).
  eexists. eexists. split; [reflexivity|].
  cbn [world f_results isUpdating update_history maintenanceMode queuePaused
         add_log set_updateProgress updateProgress p_progress p_status].
  split; [congruence|]. split; [exact R1|]. split; [congruence|].
  split; [congruence|]. split; [congruence|].
  exists n. split; [lia|]. split; [rewrite R1; reflexivity|]. split; [reflexivity|].
  destruct (probed_overall (probes_of_run inp n)); reflexivity.
Qed.

(** The [catch] block, with everything that it leaves alone. *)
Lemma cycle_failed_full inp message f :
  exists f',
    cycle_failed inp message f =
      (match queue_resume_in_catch inp with
       | None => Ret {| results := f_results f; diagnosticsStatus := "error" |}
       | Some resume_message => Throw resume_message
       end, f') /\
    updateProgress (world f') =
      {| p_status := Failed; p_message := "Update failed: " ++ message;
         p_progress := 100; p_component := None |} /\
    isUpdating (world f') = isUpdating (world f) /\
    update_history (world f') = update_history (world f) /\
    mail_diagnostics (world f') = mail_diagnostics (world f) /\
    match queue_resume_in_catch inp with
    | None => maintenanceMode (world f') = false /\ queuePaused (world f') = false
    | Some _ => maintenanceMode (world f') = maintenanceMode (world f) /\
                queuePaused (world f') = queuePaused (world f)
    end.
Proof.
  unfold cycle_failed.
  unfold bind at 1. unfold inWorld at 1. unfold logger at 1. unfold modify at 1.
  rewrite (bind_Ret (inWorld_run (setProgress_run _ _ _ _ _))).
  destruct (queue_resume_in_catch inp) as [resume_message|].
  - rewrite (bind_Throw (inWorld_run (exitMaintenanceMode_throws _ _))).
    eexists. split; [reflexivity|]. repeat split; reflexivity.
  - rewrite (bind_Ret (inWorld_run (exitMaintenanceMode_run _))).
    eexists. split; [reflexivity|]. repeat split; reflexivity.
Qed.

Lemma checkAndInstallAll_unfold inp w r f' :
  isUpdating w = false ->
  try_catch (cycle inp) (cycle_failed inp)
    {| f_results := []; world := set_isUpdating true w |} = (r, f') ->
  checkAndInstallAll inp w = (r, set_isUpdating false (world f')).
Proof.
  intros H E. unfold checkAndInstallAll, bind, gets, modify. rewrite H.
  unfold with_results, try_finally. rewrite E. reflexivity.
Qed.

(** What a call that is not rejected does, path by path. *)
Lemma run_cases inp w :
  isUpdating w = false ->
  exists r w',
    checkAndInstallAll inp w = (r, w') /\
    isUpdating w' = false /\
    p_progress (updateProgress w') = 100 /\
    match pending_of inp with
    | [] =>
        r = Ret {| results := []; diagnosticsStatus := "ok" |} /\
        p_status (updateProgress w') = Done /\
        update_history w' = update_history w /\
        mail_diagnostics w' = mail_diagnostics w /\
        maintenanceMode w' = maintenanceMode w /\
        queuePaused w' = queuePaused w
    | _ :: _ =>
        match queue_pause inp with
        | Some message =>
            p_status (updateProgress w') = Failed /\
            p_message (updateProgress w') = "Update failed: " ++ message /\
            update_history w' = update_history w /\
            mail_diagnostics w' = mail_diagnostics w /\
            match queue_resume_in_catch inp with
            | None =>
                r = Ret {| results := []; diagnosticsStatus := "error" |} /\
                maintenanceMode w' = false /\ queuePaused w' = false
            | Some resume_message =>
                r = Throw resume_message /\
                maintenanceMode w' = true /\ queuePaused w' = queuePaused w
            end
        | None =>
            update_history w' = (update_history w ++ installed_rows inp)%list /\
            match queue_resume_after_install inp with
            | Some message =>
                p_status (updateProgress w') = Failed /\
                p_message (updateProgress w') = "Update failed: " ++ message /\
                mail_diagnostics w' = mail_diagnostics w /\
                match queue_resume_in_catch inp with
                | None =>
                    r = Ret {| results := install_results inp;
                               diagnosticsStatus := "error" |} /\
                    maintenanceMode w' = false /\ queuePaused w' = false
                | Some resume_message =>
                    r = Throw resume_message /\
                    maintenanceMode w' = true /\ queuePaused w' = true
                end
            | None =>
                maintenanceMode w' = false /\ queuePaused w' = false /\
                match previous_query (diagnostics_first inp) with
                | Throw message =>
                    p_status (updateProgress w') = Failed /\
                    p_message (updateProgress w') = "Update failed: " ++ message /\
                    match queue_resume_in_catch inp with
                    | None =>
                        r = Ret {| results := install_results inp;
                                   diagnosticsStatus := "error" |}
                    | Some resume_message => r = Throw resume_message
                    end
                | Ret _ =>
                    exists reruns,
                      0 <= reruns <= 3 /\
                      r = Ret {| results := install_results inp;
                                 diagnosticsStatus :=
                                   status_string
                                     (probed_overall (probes_of_run inp reruns)) |} /\
                      p_status (updateProgress w') =
                        match probed_overall (probes_of_run inp reruns) with
                        | Ok => Done
                        | Warning | Error => Failed
                        end
                end
            end
        end
    end.
Proof.
  intros Hidle.
  destruct (cycle_cases inp {| f_results := []; world := set_isUpdating true w |})
    as (r & f1 & E & Hu & C).
  cbn [f_results world isUpdating update_history mail_diagnostics maintenanceMode
         queuePaused set_isUpdating app] in Hu, C.
  destruct (pending_of inp) as [|check rest].
  { destruct C as (-> & _ & Hh & Hd & Hm & Hq & Hp).
    eexists. exists (set_isUpdating false (world f1)). split.
    - apply (checkAndInstallAll_unfold inp w _ f1 Hidle). unfold try_catch. rewrite E. reflexivity.
    - cbn [isUpdating update_history mail_diagnostics maintenanceMode queuePaused
             updateProgress set_isUpdating].
      rewrite Hp. repeat split; try assumption; reflexivity. }
  destruct (queue_pause inp) as [message|].
  { destruct C as (-> & Hr & Hh & Hd & Hm & Hq).
    destruct (cycle_failed_full inp message f1) as (f2 & E2 & Hp & Hu2 & Hh2 & Hd2 & Hc).
    eexists. exists (set_isUpdating false (world f2)). split.
    - apply (checkAndInstallAll_unfold inp w _ f2 Hidle). unfold try_catch. rewrite E. exact E2.
    - cbn [isUpdating update_history mail_diagnostics maintenanceMode queuePaused
             updateProgress set_isUpdating].
      rewrite Hp. cbn [p_progress p_status p_message].
      split; [reflexivity|]. split; [reflexivity|]. split; [reflexivity|].
      split; [reflexivity|]. split; [congruence|]. split; [congruence|].
      destruct (queue_resume_in_catch inp).
      + destruct Hc. repeat split; congruence.
      + destruct Hc. rewrite Hr. repeat split; assumption. }
  destruct C as (Hr & Hh & C).
  destruct (queue_resume_after_install inp) as [message|].
  { destruct C as (-> & Hd & Hm & Hq).
    destruct (cycle_failed_full inp message f1) as (f2 & E2 & Hp & Hu2 & Hh2 & Hd2 & Hc).
    eexists. exists (set_isUpdating false (world f2)). split.
    - apply (checkAndInstallAll_unfold inp w _ f2 Hidle). unfold try_catch. rewrite E. exact E2.
    - cbn [isUpdating update_history mail_diagnostics maintenanceMode queuePaused
             updateProgress set_isUpdating].
      rewrite Hp. cbn [p_progress p_status p_message].
      split; [reflexivity|]. split; [reflexivity|]. split; [congruence|].
      split; [reflexivity|]. split; [reflexivity|]. split; [congruence|].
      destruct (queue_resume_in_catch inp).
      + destruct Hc. repeat split; congruence.
      + destruct Hc. rewrite Hr. repeat split; assumption. }
  destruct C as (Hm & Hq & C).
  destruct (previous_query (diagnostics_first inp)) as [rows|message].
  - destruct C as (reruns & Hn & -> & Hp & Hs).
    eexists. exists (set_isUpdating false (world f1)). split.
    + apply (checkAndInstallAll_unfold inp w _ f1 Hidle). unfold try_catch. rewrite E. reflexivity.
    + cbn [isUpdating update_history mail_diagnostics maintenanceMode queuePaused
             updateProgress set_isUpdating].
      split; [reflexivity|]. split; [exact Hp|]. split; [exact Hh|].
      split; [exact Hm|]. split; [exact Hq|].
      exists reruns. repeat split; try assumption; lia.
  - subst r.
    destruct (cycle_failed_full inp message f1) as (f2 & E2 & Hp & Hu2 & Hh2 & Hd2 & Hc).
    eexists. exists (set_isUpdating false (world f2)). split.
    + apply (checkAndInstallAll_unfold inp w _ f2 Hidle). unfold try_catch. rewrite E. exact E2.
    + cbn [isUpdating update_history mail_diagnostics maintenanceMode queuePaused
             updateProgress set_isUpdating].
      rewrite Hp. cbn [p_progress p_status p_message].
      split; [reflexivity|]. split; [reflexivity|]. split; [congruence|].
      assert (maintenanceMode (world f2) = false /\ queuePaused (world f2) = false)
        as [-> ->].
      { destruct (queue_resume_in_catch inp); destruct Hc; split; congruence. }
      split; [reflexivity|]. split; [reflexivity|].
      split; [reflexivity|]. split; [reflexivity|].
      destruct (queue_resume_in_catch inp); [reflexivity|]. rewrite Hr. reflexivity.
Qed.

(** X14: when no component has an update, a call that is not rejected
    ends done at 100 percent with the value "ok" and no results; it does not
    enter maintenance mode, does not touch the queue, installs nothing and
    runs no diagnostics. *)
Theorem nothing_pending_changes_nothing inp w :
  isUpdating w = false ->
  pending_of inp = [] ->
  let run := checkAndInstallAll inp w in
  fst run = Ret {| results := []; diagnosticsStatus := "ok" |} /\
  p_status (updateProgress (snd run)) = Done /\
  p_progress (updateProgress (snd run)) = 100 /\
  maintenanceMode (snd run) = maintenanceMode w /\
  queuePaused (snd run) = queuePaused w /\
  update_history (snd run) = update_history w /\
  mail_diagnostics (snd run) = mail_diagnostics w /\
  isUpdating (snd run) = false.
Proof.
  intros Hidle Hp. cbv zeta.
  destruct (run_cases inp w Hidle) as (r & w' & E & Hu & Hg & C).
  rewrite E. cbn [fst snd]. rewrite Hp in C.
  destruct C as (-> & Hs & Hh & Hd & Hm & Hq). repeat split; assumption.
Qed.

Lemma nothing_pending_changes_nothing_witness :
  fst (checkAndInstallAll nothing_to_update initial_world)
  = Ret {| results := []; diagnosticsStatus := "ok" |}.
Proof.
  exact (proj1 (nothing_pending_changes_nothing nothing_to_update initial_world
                  eq_refl eq_refl)).
Defined.

(** X15: when the queue cannot be paused, nothing is installed and no
    diagnostics run: the cycle ends failed with the message of the queue,
    and, when the queue lets itself be resumed in the [catch] block, returns
    the value "error" without results and with maintenance mode off. *)
Theorem failed_pause_installs_nothing inp w message :
  isUpdating w = false ->
  pending_of inp <> [] ->
  queue_pause inp = Some message ->
  let run := checkAndInstallAll inp w in
  update_history (snd run) = update_history w /\
  mail_diagnostics (snd run) = mail_diagnostics w /\
  p_status (updateProgress (snd run)) = Failed /\
  p_message (updateProgress (snd run)) = "Update failed: " ++ message /\
  (queue_resume_in_catch inp = None ->
   fst run = Ret {| results := []; diagnosticsStatus := "error" |} /\
   maintenanceMode (snd run) = false /\
   queuePaused (snd run) = false).
Proof.
  intros Hidle Hp Hq. cbv zeta.
  destruct (run_cases inp w Hidle) as (r & w' & E & Hu & Hg & C).
  rewrite E. cbn [fst snd].
  destruct (pending_of inp); [congruence|]. rewrite Hq in C.
  destruct C as (Hs & Hm & Hh & Hd & C).
  split; [exact Hh|]. split; [exact Hd|]. split; [exact Hs|]. split; [exact Hm|].
  intros Hc. rewrite Hc in C. exact C.
Qed.

Lemma failed_pause_installs_nothing_witness :
  fst (checkAndInstallAll update_with_failing_pause initial_world)
  = Ret {| results := []; diagnosticsStatus := "error" |}.
Proof.
  refine (proj1 (proj2 (proj2 (proj2 (proj2
            (failed_pause_installs_nothing update_with_failing_pause initial_world
               "Connection is closed." eq_refl _ eq_refl)))) eq_refl)).
  discriminate.
Defined.

Lemma installUpdate_component inp check :
  ur_component (installUpdate inp check) = component check.
Proof.
  unfold installUpdate. destruct (installCommands inp check "") as [[|] ?]; reflexivity.
Qed.

(** X16: once the queue is paused, the cycle installs every pending
    component, in the order of the version checks, and adds to
    [update_history] the row of every result whose insert goes through;
    this holds whatever fails afterwards.  A cycle that returns, returns
    these results; a failed insert removes only its own row. *)
Theorem every_pending_update_is_recorded inp w :
  isUpdating w = false ->
  queue_pause inp = None ->
  let run := checkAndInstallAll inp w in
  update_history (snd run) = (update_history w ++ installed_rows inp)%list /\
  (forall value, fst run = Ret value -> results value = install_results inp) /\
  map ur_component (install_results inp) = map component (pending_of inp) /\
  ((forall result, history_query inp result = None) ->
   map h_component (installed_rows inp) = map component (pending_of inp)).
Proof.
  intros Hidle Hq. cbv zeta.
  destruct (run_cases inp w Hidle) as (r & w' & E & Hu & Hg & C).
  rewrite E. cbn [fst snd].
  assert (Hc : map ur_component (install_results inp) = map component (pending_of inp)).
  { unfold install_results. rewrite map_map. apply map_ext.
    intros check. apply installUpdate_component. }
  assert (Hall : (forall result, history_query inp result = None) ->
                 map h_component (installed_rows inp) = map component (pending_of inp)).
  { intros All. unfold installed_rows.
    rewrite forallb_filter_id.
    - rewrite map_map. cbn [h_component history_row]. exact Hc.
    - apply forallb_forall. intros result _. unfold saved. now rewrite All. }
  unfold installed_rows, install_results in *.
  destruct (pending_of inp) as [|check rest].
  { destruct C as (-> & _ & Hh & _). cbn [map filter]. rewrite app_nil_r.
    split; [exact Hh|]. split; [|split; assumption].
    intros value V. inversion V. reflexivity. }
  rewrite Hq in C. destruct C as (Hh & C).
  split; [exact Hh|]. split; [|split; assumption].
  intros value V.
  destruct (queue_resume_after_install inp).
  - destruct C as (_ & _ & _ & C). destruct (queue_resume_in_catch inp);
      destruct C as (-> & _); inversion V; reflexivity.
  - destruct C as (_ & _ & C). destruct (previous_query (diagnostics_first inp)).
    + destruct C as (reruns & _ & -> & _). inversion V. reflexivity.
    + destruct C as (_ & _ & C). destruct (queue_resume_in_catch inp); subst r;
        inversion V; reflexivity.
Qed.

Lemma every_pending_update_is_recorded_witness :
  map h_component
    (update_history (snd (checkAndInstallAll smooth_update initial_world)))
  = ["roundcube"].
Proof.
  rewrite (proj1 (every_pending_update_is_recorded smooth_update initial_world
                    eq_refl eq_refl)).
  reflexivity.
Defined.

(** X17: every call that is not rejected ends in a terminal state, whether
    it returns or throws: the status is done or failed, the progress is
    100, and the busy flag is cleared. *)
Theorem cycle_ends_in_terminal_state inp w :
  isUpdating w = false ->
  let w' := snd (checkAndInstallAll inp w) in
  (p_status (updateProgress w') = Done \/ p_status (updateProgress w') = Failed) /\
  p_progress (updateProgress w') = 100 /\
  isUpdating w' = false.
Proof.
  intros Hidle. cbv zeta.
  destruct (run_cases inp w Hidle) as (r & w' & E & Hu & Hg & C).
  rewrite E. cbn [snd]. split; [|split; assumption].
  destruct (pending_of inp); [left; apply C|].
  destruct (queue_pause inp); [right; apply C|].
  destruct C as (_ & C).
  destruct (queue_resume_after_install inp); [right; apply C|].
  destruct C as (_ & _ & C).
  destruct (previous_query (diagnostics_first inp)); [|right; apply C].
  destruct C as (reruns & _ & _ & ->).
  destruct (probed_overall (probes_of_run inp reruns)); [left|right|right]; reflexivity.
Qed.

Lemma cycle_ends_in_terminal_state_witness :
  p_progress (updateProgress
                (snd (checkAndInstallAll update_with_queue_down initial_world))) = 100.
Proof.
  exact (proj1 (proj2 (cycle_ends_in_terminal_state update_with_queue_down
                         initial_world eq_refl))).
Defined.

Lemma status_string_not_rejection s :
  status_string s <> "update-already-in-progress".
Proof. destruct s; discriminate. Qed.

(** X18: a call that is not rejected never answers with the value of a
    rejection, and after it, however it ended, the next call is not
    rejected either. *)
Theorem next_trigger_is_accepted inp next w :
  isUpdating w = false ->
  fst (checkAndInstallAll inp w) <> Ret rejection /\
  fst (checkAndInstallAll next (snd (checkAndInstallAll inp w))) <> Ret rejection.
Proof.
  assert (G : forall i v, isUpdating v = false ->
                          fst (checkAndInstallAll i v) <> Ret rejection).
  { intros i v Hidle.
    destruct (run_cases i v Hidle) as (r & w' & E & Hu & Hg & C).
    rewrite E. cbn [fst]. unfold rejection.
    destruct (pending_of i); [destruct C as (-> & _); discriminate|].
    destruct (queue_pause i).
    { destruct C as (_ & _ & _ & _ & C).
      destruct (queue_resume_in_catch i); destruct C as (-> & _); discriminate. }
    destruct C as (_ & C).
    destruct (queue_resume_after_install i).
    { destruct C as (_ & _ & _ & C).
      destruct (queue_resume_in_catch i); destruct C as (-> & _); discriminate. }
    destruct C as (_ & _ & C).
    destruct (previous_query (diagnostics_first i)).
    - destruct C as (reruns & _ & -> & _). intros H. inversion H as [[H1 H2]].
      exact (status_string_not_rejection _ H2).
    - destruct C as (_ & _ & C). destruct (queue_resume_in_catch i); subst r;
        discriminate. }
  intros Hidle. split; [apply G; exact Hidle|].
  apply G. destruct (run_cases inp w Hidle) as (r & w' & E & Hu & _).
  rewrite E. exact Hu.
Qed.

Lemma next_trigger_is_accepted_witness :
  fst (checkAndInstallAll smooth_update
         (snd (checkAndInstallAll update_with_queue_down initial_world)))
  <> Ret rejection.
Proof.
  exact (proj2 (next_trigger_is_accepted update_with_queue_down smooth_update
                  initial_world eq_refl)).
Defined.

(** X19: a call that is not rejected throws only the exception of the
    resume of the queue in its [catch] block; and a cycle with pending
    updates that returns has left maintenance mode, with the queue running. *)
Theorem returning_cycle_left_maintenance inp w :
  isUpdating w = false ->
  let run := checkAndInstallAll inp w in
  (forall message,
      fst run = Throw message ->
      queue_resume_in_catch inp = Some message /\ pending_of inp <> []) /\
  (pending_of inp <> [] ->
   forall value,
     fst run = Ret value ->
     maintenanceMode (snd run) = false /\ queuePaused (snd run) = false).
Proof.
  intros Hidle. cbv zeta.
  destruct (run_cases inp w Hidle) as (r & w' & E & Hu & Hg & C).
  rewrite E. cbn [fst snd].
  destruct (pending_of inp) as [|check rest].
  { destruct C as (-> & _). split; [discriminate|]. intros H. congruence. }
  split.
  - intros message T. split; [|discriminate].
    destruct (queue_pause inp).
    { destruct C as (_ & _ & _ & _ & C).
      destruct (queue_resume_in_catch inp); destruct C as (-> & _);
        [congruence|discriminate]. }
    destruct C as (_ & C).
    destruct (queue_resume_after_install inp).
    { destruct C as (_ & _ & _ & C).
      destruct (queue_resume_in_catch inp); destruct C as (-> & _);
        [congruence|discriminate]. }
    destruct C as (_ & _ & C).
    destruct (previous_query (diagnostics_first inp)).
    + destruct C as (reruns & _ & -> & _). discriminate.
    + destruct C as (_ & _ & C). destruct (queue_resume_in_catch inp); subst r;
        [congruence|discriminate].
  - intros _ value V.
    destruct (queue_pause inp).
    { destruct C as (_ & _ & _ & _ & C).
      destruct (queue_resume_in_catch inp); destruct C as (-> & Hm & Hq);
        [discriminate|split; assumption]. }
    destruct C as (_ & C).
    destruct (queue_resume_after_install inp).
    { destruct C as (_ & _ & _ & C).
      destruct (queue_resume_in_catch inp); destruct C as (-> & Hm & Hq);
        [discriminate|split; assumption]. }
    destruct C as (Hm & Hq & _). split; assumption.
Qed.

Lemma returning_cycle_left_maintenance_witness :
  queue_resume_in_catch update_with_queue_down = Some "Connection is closed.".
Proof.
  exact (proj1 (proj1 (returning_cycle_left_maintenance update_with_queue_down
                         initial_world eq_refl)
                  "Connection is closed." eq_refl)).
Defined.

(** X20: entering maintenance mode sets the flag and pauses the queue,
    entering again changes neither, and leaving it afterwards clears the
    flag and resumes the queue, without touching the tables, the busy flag
    or the progress.  If the queue cannot be paused the flag is set all the
    same and the queue is left alone; if it cannot be resumed nothing is
    changed. *)
Theorem maintenance_mode_round_trip inp w :
  (queue_pause inp = None ->
   let entered := snd (AutoUpdaterService.enterMaintenanceMode inp w) in
   let again := snd (AutoUpdaterService.enterMaintenanceMode inp entered) in
   let exited := snd (AutoUpdaterService.exitMaintenanceMode None entered) in
   (maintenanceMode entered = true /\ queuePaused entered = true) /\
   (maintenanceMode again = true /\ queuePaused again = true) /\
   (maintenanceMode exited = false /\ queuePaused exited = false) /\
   update_history exited = update_history w /\
   mail_diagnostics exited = mail_diagnostics w /\
   isUpdating exited = isUpdating w /\
   updateProgress exited = updateProgress w) /\
  (forall message,
      queue_pause inp = Some message ->
      fst (AutoUpdaterService.enterMaintenanceMode inp w) = Throw message /\
      maintenanceMode (snd (AutoUpdaterService.enterMaintenanceMode inp w)) = true /\
      queuePaused (snd (AutoUpdaterService.enterMaintenanceMode inp w)) = queuePaused w) /\
  (forall message,
      AutoUpdaterService.exitMaintenanceMode (Some message) w = (Throw message, w)).
Proof.
  split; [|split].
  - intros H. cbv zeta. rewrite !(enterMaintenanceMode_run _ _ H). cbn [snd].
    rewrite exitMaintenanceMode_run. repeat split; reflexivity.
  - intros message H. rewrite (enterMaintenanceMode_throws _ _ _ H).
    repeat split; reflexivity.
  - intros message. reflexivity.
Qed.

Lemma maintenance_mode_round_trip_witness :
  maintenanceMode
    (snd (AutoUpdaterService.exitMaintenanceMode None
            (snd (AutoUpdaterService.enterMaintenanceMode smooth_update initial_world))))
  = false.
Proof.
  destruct (maintenance_mode_round_trip smooth_update initial_world) as [H _].
  exact (proj1 (proj1 (proj2 (proj2 (H eq_refl))))).
Defined.

(** ** The version checks *)

Lemma skip_digits_decompose s :
  exists d, all_digits d = true /\ s = d ++ skip_digits s.
Proof.
  induction s as [|c r (d & Hd & E)].
  - exists "". split; reflexivity.
  - cbn [skip_digits]. destruct (is_digit c) eqn:D.
    + exists (String c d). cbn [all_digits append]. rewrite D, Hd.
      split; [reflexivity|]. now rewrite <- E.
    + exists "". split; reflexivity.
Qed.

Lemma skip_digits_app d rest :
  all_digits d = true -> starts_without_digit rest -> skip_digits (d ++ rest) = rest.
Proof.
  intros Hd Hr. induction d as [|c d IH]; cbn [append].
  - destruct rest as [|c r]; [reflexivity|]. cbn [skip_digits]. cbn in Hr. now rewrite Hr.
  - cbn [all_digits] in Hd. apply andb_true_iff in Hd. destruct Hd as [Hc Hd].
    cbn [skip_digits]. rewrite Hc. apply IH. exact Hd.
Qed.

(** X21: the pattern of the Roundcube tags accepts exactly the tags of the
    form [major.minor-apache], where major and minor are non-empty strings
    of decimal digits. *)
Theorem apache_tag_pattern t :
  matches_apache_tag t = true <->
  exists major minor,
    number major /\ number minor /\ t = major ++ "." ++ minor ++ "-apache".
Proof.
  unfold matches_apache_tag, digits1, number. split.
  - destruct t as [|c0 r0]; [discriminate|].
    destruct (is_digit c0) eqn:D0; [|discriminate].
    destruct (skip_digits_decompose r0) as (d & Hd & E0).
    destruct (skip_digits r0) as [|c r]; [discriminate|].
    destruct (Ascii.eqb_spec c "."%char) as [->|]; [|discriminate].
    destruct r as [|c1 r1]; [discriminate|].
    destruct (is_digit c1) eqn:D1; [|discriminate].
    destruct (skip_digits_decompose r1) as (d' & Hd' & E1).
    intros H. apply String.eqb_eq in H. rewrite H in E1.
    exists (String c0 d), (String c1 d'). cbn [all_digits]. rewrite D0, D1, Hd, Hd'.
    split; [split; [discriminate|reflexivity]|].
    split; [split; [discriminate|reflexivity]|].
    cbn [append]. rewrite E0 at 1. rewrite E1 at 1. reflexivity.
  - intros (major & minor & [Nm Dm] & [Nn Dn] & ->).
    destruct major as [|c0 a]; [congruence|]. destruct minor as [|c1 b]; [congruence|].
    cbn [all_digits] in Dm, Dn.
    apply andb_true_iff in Dm. apply andb_true_iff in Dn.
    destruct Dm as [D0 Da], Dn as [D1 Db].
    cbn [append]. rewrite D0.
    rewrite (skip_digits_app a (String "." (String c1 (b ++ "-apache"))) Da)
      by reflexivity.
    cbn [Ascii.eqb Bool.eqb]. rewrite D1.
    rewrite (skip_digits_app b "-apache" Db) by reflexivity.
    reflexivity.
Qed.

(** X22: whatever the registries answer, the check phase yields the four
    components in a fixed order; and a component is reported with an update
    only if its current version is resolved and differs from the latest
    one.  So a package that is not installed, or a component whose registry
    cannot be reached, is never pending. *)
Theorem check_phase_results reg :
  map component (checkAll reg)
  = ["roundcube"; "whatsapp-api"; "instagram-api"; "nestjs-core"] /\
  (forall c,
      In c (checkAll reg) ->
      updateAvailable c = true ->
      currentVersion c <> "unknown" /\ currentVersion c <> latestVersion c).
Proof.
  assert (N : forall pkg comp,
             updateAvailable (checkNpmPackage reg pkg comp) = true ->
             currentVersion (checkNpmPackage reg pkg comp) <> "unknown" /\
             currentVersion (checkNpmPackage reg pkg comp)
             <> latestVersion (checkNpmPackage reg pkg comp)).
  { intros pkg comp. unfold checkNpmPackage.
    destruct (npmLatest reg pkg); cbn; [|discriminate].
    intros H. apply andb_true_iff in H. destruct H as [H1 H2].
    apply negb_true_iff in H1, H2. split; now apply String.eqb_neq. }
  assert (C : forall pkg comp, component (checkNpmPackage reg pkg comp) = comp).
  { intros pkg comp. unfold checkNpmPackage. destruct (npmLatest reg pkg); reflexivity. }
  split.
  - unfold checkAll. cbn [map]. rewrite !C.
    unfold checkRoundcube. destruct (dockerHub reg); reflexivity.
  - unfold checkAll. intros c [<-|[<-|[<-|[<-|[]]]]]; try apply N.
    unfold checkRoundcube. destruct (dockerHub reg); cbn; [|discriminate].
    intros H. apply negb_true_iff in H. split; [discriminate|].
    now apply String.eqb_neq.
Qed.

Lemma check_phase_results_witness :
  currentVersion (checkRoundcube registry_roundcube_update) <> "unknown".
Proof.
  refine (proj1 (proj2 (check_phase_results registry_roundcube_update) _ _ _)).
  - left. reflexivity.
  - reflexivity.
Defined.

(** X23: the result of an install carries the component and the two
    versions of its check and always says success.  Its log is made of
    what [execSync] gives for the commands that are run: the output of a
    command, or "EXEC ERROR: " with the message of its exception.  For
    roundcube these are the pull of the image and the restart of the
    container, joined by a newline; for whatsapp-api the command installs
    [@whiskeysockets/baileys] and for instagram-api [instagram-private-api];
    for every other component, so for nestjs-core, the package has the name
    of the component. *)
Theorem install_runs_the_package_command inp check :
  let result := installUpdate inp check in
  let log cmd :=
    match execSync inp cmd with
    | Ret out => out
    | Throw message => "EXEC ERROR: " ++ message
    end in
  let npm_install package :=
    log ("npm install " ++ package ++ "@" ++ latestVersion check
           ++ " --save --prefix /app") in
  ur_component result = component check /\
  previousVersion result = currentVersion check /\
  newVersion result = latestVersion check /\
  success result = true /\
  (component check = "roundcube" ->
   logOutput result =
     log ("docker pull roundcube/roundcubemail:" ++ latestVersion check) ++ nl
       ++ log "docker compose -f /app/email-server/docker-compose.mail.yml up -d roundcube") /\
  (component check = "whatsapp-api" ->
   logOutput result = npm_install "@whiskeysockets/baileys") /\
  (component check = "instagram-api" ->
   logOutput result = npm_install "instagram-private-api") /\
  (component check <> "roundcube" ->
   component check <> "whatsapp-api" ->
   component check <> "instagram-api" ->
   logOutput result = npm_install (component check)).
Proof.
  cbv zeta.
  assert (G : forall package,
             String.eqb (component check) "roundcube" = false ->
             (if String.eqb (component check) "whatsapp-api"
              then "@whiskeysockets/baileys"
              else if String.eqb (component check) "instagram-api"
                   then "instagram-private-api" else component check) = package ->
             logOutput (installUpdate inp check) =
               match execSync inp ("npm install " ++ package ++ "@" ++ latestVersion check
                                     ++ " --save --prefix /app") with
               | Ret out => out
               | Throw message => "EXEC ERROR: " ++ message
               end).
  { intros package R <-. unfold installUpdate, installCommands. rewrite R.
    unfold bind, await, modify, ret, execSafe.
    match goal with
    | |- context [execSync inp ?cmd] => destruct (execSync inp cmd)
    end; reflexivity. }
  split; [apply installUpdate_component|].
  split; [unfold installUpdate; destruct (installCommands inp check "") as [[|] ?];
          reflexivity|].
  split; [unfold installUpdate; destruct (installCommands inp check "") as [[|] ?];
          reflexivity|].
  split; [apply installUpdate_always_success|].
  split; [|split; [|split]].
  - intros H. unfold installUpdate, installCommands. rewrite H. cbn [String.eqb Ascii.eqb Bool.eqb].
    unfold bind, await, modify, ret, execSafe.
    destruct (execSync inp ("docker pull roundcube/roundcubemail:" ++ latestVersion check)),
      (execSync inp
         "docker compose -f /app/email-server/docker-compose.mail.yml up -d roundcube");
      reflexivity.
  - intros H. apply G; rewrite H; reflexivity.
  - intros H. apply G; rewrite H; reflexivity.
  - intros H1 H2 H3. apply String.eqb_neq in H1, H2, H3. apply G; [exact H1|].
    rewrite H2, H3. reflexivity.
Qed.

Lemma install_runs_the_package_command_witness :
  logOutput
    (installUpdate update_with_failing_commands
       {| component := "nestjs-core"; currentVersion := "10.3.0";
          latestVersion := "10.4.0"; updateAvailable := true |})
  = "EXEC ERROR: Command failed: exit code 1".
Proof.
  refine (proj2 (proj2 (proj2 (proj2 (proj2 (proj2 (proj2
            (install_runs_the_package_command update_with_failing_commands
               {| component := "nestjs-core"; currentVersion := "10.3.0";
                  latestVersion := "10.4.0"; updateAvailable := true |})))))))
            _ _ _); discriminate.
Defined.

Lemma apache_tag_pattern_witness : matches_apache_tag "1.7-apache" = true.
Proof.
  apply (proj2 (apache_tag_pattern "1.7-apache")).
  exists "1", "7". repeat split; discriminate || reflexivity.
Defined.

(** ** Counting the diagnostics runs *)

Lemma started_add_log l message w :
  diagnostics_started (add_log l message w)
  = (diagnostics_started w + (if is_start (l, message) then 1 else 0))%nat.
Proof.
  unfold diagnostics_started. cbn [logs add_log]. rewrite filter_app, length_app.
  cbn [filter]. destruct (is_start (l, message)); reflexivity.
Qed.


Lemma started_set_updateProgress p w :
  diagnostics_started (set_updateProgress p w) = diagnostics_started w.
Proof. reflexivity. Qed.

Lemma started_set_maintenanceMode b w :
  diagnostics_started (set_maintenanceMode b w) = diagnostics_started w.
Proof. reflexivity. Qed.

Lemma started_set_queuePaused b w :
  diagnostics_started (set_queuePaused b w) = diagnostics_started w.
Proof. reflexivity. Qed.

Lemma started_set_isUpdating b w :
  diagnostics_started (set_isUpdating b w) = diagnostics_started w.
Proof. reflexivity. Qed.

Lemma started_add_history_row r w :
  diagnostics_started (add_history_row r w) = diagnostics_started w.
Proof. reflexivity. Qed.

Lemma started_add_diagnostics_row r w :
  diagnostics_started (add_diagnostics_row r w) = diagnostics_started w.
Proof. reflexivity. Qed.

(** Removes from the goal the log lines that are not the start line (which
    their first characters decide) and the writes to other fields. *)
Ltac not_a_start :=
  repeat first
    [ rewrite started_add_log;
      match goal with
      | |- context [is_start ?line] => change (is_start line) with false
      end;
      cbv iota; rewrite Nat.add_0_r
    | rewrite started_set_updateProgress
    | rewrite started_set_maintenanceMode
    | rewrite started_set_queuePaused
    | rewrite started_set_isUpdating
    | rewrite started_add_history_row
    | rewrite started_add_diagnostics_row ];
  try reflexivity; try congruence.

Lemma started_attemptRepair c w :
  diagnostics_started (snd (attemptRepair c w)) = diagnostics_started w.
Proof.
  unfold attemptRepair, logger, bind, modify, ret.
  repeat match goal with
         | |- context [if ?b then _ else _] => destruct b
         end; cbn [snd]; not_a_start.
Qed.

Lemma started_repairFailed cs : forall w,
  diagnostics_started (snd (repairFailed cs w)) = diagnostics_started w.
Proof.
  induction cs as [|c cs IH]; intros w; cbn [repairFailed]; [reflexivity|].
  destruct (status c); try apply IH.
  pose proof (started_attemptRepair c w) as S1.
  destruct (attemptRepair_run c w) as (w1 & E1 & _).
  rewrite E1 in S1. cbn [snd] in S1.
  pose proof (IH w1) as S2.
  destruct (repairFailed_run cs w1) as (w2 & E2 & _).
  rewrite E2 in S2. cbn [snd] in S2.
  rewrite (bind_Ret E1), (bind_Ret E2). cbn [snd ret]. congruence.
Qed.

Lemma started_persistCheck p c w :
  diagnostics_started (snd (persistCheck p c w)) = diagnostics_started w.
Proof.
  unfold persistCheck, try_catch, bind, call, logger, modify, ret, throw.
  destruct (persist_query p c); cbn [snd]; [|reflexivity].
  not_a_start.
Qed.

Lemma started_persist_all p cs : forall w,
  diagnostics_started (snd (for_each cs (persistCheck p) w)) = diagnostics_started w.
Proof.
  induction cs as [|c cs IH]; intros w; cbn [for_each]; [reflexivity|].
  pose proof (started_persistCheck p c w) as S1.
  destruct (persistCheck_run p c w) as (w1 & E1 & _).
  rewrite E1 in S1. cbn [snd] in S1.
  rewrite (bind_Ret E1), IH. exact S1.
Qed.

Lemma started_logBeforeAfterReport p after w :
  diagnostics_started (snd (logBeforeAfterReport p after w)) = diagnostics_started w.
Proof.
  unfold logBeforeAfterReport, await, logger, modify, bind, ret, throw.
  destruct (previous_query p); [destruct (_ =? _)%nat|]; cbn [snd];
    [not_a_start|not_a_start|reflexivity].
Qed.

(** Every call of [runFullDiagnostics] shows in the log, once. *)
Lemma started_runFullDiagnostics beforeAfter p w :
  diagnostics_started (snd (runFullDiagnostics beforeAfter p w))
  = S (diagnostics_started w).
Proof.
  unfold runFullDiagnostics. unfold bind at 1. unfold logger at 1. unfold modify at 1.
  set (w0 := add_log LLog "Starting full mail diagnostics..." w).
  assert (S0 : diagnostics_started w0 = S (diagnostics_started w)).
  { subst w0. rewrite started_add_log.
    change (is_start (LLog, "Starting full mail diagnostics...")) with true.
    cbv iota. lia. }
  rewrite <- S0. clearbody w0. clear S0.
  unfold diagnose.
  set (cs := [unwrap (Fulfilled (checkSmtp p)); unwrap (Fulfilled (checkImap p));
              unwrap (Fulfilled (checkSslCertificate p));
              unwrap (Fulfilled (checkRoundcubeHealth p))]).
  pose proof (started_repairFailed cs w0) as S1.
  destruct (repairFailed_run cs w0) as (w1 & E1 & _).
  rewrite E1 in S1. cbn [snd] in S1.
  pose proof (started_persist_all p cs w1) as S2.
  destruct (persist_all_run p cs w1) as (w2 & E2 & _).
  rewrite E2 in S2. cbn [snd] in S2.
  rewrite (bind_Ret E1), (bind_Ret E2).
  unfold bind at 1. unfold logger at 1. unfold modify at 1.
  match goal with
  | |- context [add_log LLog ?m w2] => set (w3 := add_log LLog m w2)
  end.
  assert (S3 : diagnostics_started w3 = diagnostics_started w0).
  { subst w3. not_a_start. }
  rewrite <- S3. clearbody w3.
  destruct beforeAfter.
  - match goal with
    | |- context [logBeforeAfterReport p ?r] =>
        pose proof (started_logBeforeAfterReport p r w3) as S4;
        destruct (logBeforeAfterReport p r w3) as [[[]|message] w4] eqn:E4
    end; cbn [snd] in S4.
    + rewrite (bind_Ret E4). exact S4.
    + rewrite (bind_Throw E4). exact S4.
  - reflexivity.
Qed.

Lemma started_setProgress st message progress comp w :
  diagnostics_started (snd (setProgress st message progress comp w))
  = diagnostics_started w.
Proof.
  rewrite setProgress_run. cbn [snd]. not_a_start.
Qed.

Lemma started_saveUpdateHistory inp r w :
  diagnostics_started (snd (saveUpdateHistory inp r w)) = diagnostics_started w.
Proof.
  rewrite saveUpdateHistory_run. cbn [snd].
  destruct (history_query inp r); [|reflexivity].
  not_a_start.
Qed.

Lemma started_installPending inp pending : forall progressStep f,
  diagnostics_started (world (snd (installPending inp pending progressStep f)))
  = diagnostics_started (world f).
Proof.
  induction pending as [|check rest IH]; intros progressStep f; [reflexivity|].
  cbn [installPending].
  rewrite (bind_Ret (inWorld_run (setProgress_run _ _ _ _ _))).
  unfold push_result at 1. unfold bind at 1. unfold modify at 1.
  rewrite (bind_Ret (inWorld_run (saveUpdateHistory_run _ _ _))).
  rewrite IH. cbn [world].
  destruct (history_query inp (installUpdate inp check)); not_a_start.
Qed.

(** The repair loop with its effects: it leaves with [n] re-runs done, at
    most three, each of which shows once in the log and has added its rows;
    every run before the last one ended in error, and the last one did not
    unless [n] is three. *)
Lemma repairLoop_full inp fuel : forall repairAttempts report w,
  0 <= repairAttempts ->
  3 - repairAttempts <= Z.of_nat fuel ->
  overall report = probed_overall (probes_of_run inp repairAttempts) ->
  exists final n w',
    repairLoop fuel inp repairAttempts report w = (Ret (final, n), w') /\
    repairAttempts <= n <= Z.max 3 repairAttempts /\
    overall final = probed_overall (probes_of_run inp n) /\
    (forall k, repairAttempts <= k < n ->
               probed_overall (probes_of_run inp k) = Error) /\
    (n < 3 -> overall final <> Error) /\
    settled_view w' = settled_view w /\
    diagnostics_started w'
    = (diagnostics_started w + Z.to_nat (n - repairAttempts))%nat /\
    mail_diagnostics w' =
      (mail_diagnostics w
         ++ rerun_rows inp (repairAttempts + 1) (Z.to_nat (n - repairAttempts)))%list.
Proof.
  assert (Stop : forall a report w,
             overall report = probed_overall (probes_of_run inp a) ->
             (a < 3 -> overall report <> Error) ->
             exists final n w',
               (Ret (report, a), w) = (Ret (final, n), w') /\
               a <= n <= Z.max 3 a /\
               overall final = probed_overall (probes_of_run inp n) /\
               (forall k, a <= k < n -> probed_overall (probes_of_run inp k) = Error) /\
               (n < 3 -> overall final <> Error) /\
               settled_view w' = settled_view w /\
               diagnostics_started w' = (diagnostics_started w + Z.to_nat (n - a))%nat /\
               mail_diagnostics w' =
                 (mail_diagnostics w ++ rerun_rows inp (a + 1) (Z.to_nat (n - a)))%list).
  { intros a report w Hov Hne. exists report, a, w.
    rewrite Z.sub_diag. cbn [Z.to_nat rerun_rows]. rewrite app_nil_r, Nat.add_0_r.
    split; [reflexivity|]. split; [lia|]. split; [exact Hov|].
    split; [intros; lia|]. split; [exact Hne|]. repeat split; reflexivity. }
  induction fuel as [|fuel IH]; intros a report w Ha Hfuel Hov.
  - cbn [repairLoop].
    replace (a <? 3) with false by (symmetry; apply Z.ltb_ge; lia).
    rewrite andb_false_r. apply Stop; [exact Hov|]. intros. lia.
  - cbn [repairLoop].
    destruct (status_eqb (overall report) Error) eqn:Es; cbn [andb].
    + destruct (Z.ltb_spec a 3) as [Hlt|Hge].
      * rewrite (bind_Ret (setProgress_run _ _ _ _ _)).
        match goal with
        | |- context [bind (runFullDiagnostics false ?p) _ ?w0] =>
            pose proof (started_runFullDiagnostics false p w0) as S1;
            destruct (runFullDiagnostics_full false p w0) as (w1 & E1 & V1 & D1)
        end.
        rewrite E1 in S1. cbn [snd] in S1.
        cbv beta iota in E1. rewrite (bind_Ret E1).
        match goal with
        | |- context [repairLoop fuel inp (a + 1) ?r w1] =>
            destruct (IH (a + 1) r w1)
              as (final & n & w2 & E2 & Hn & Hf & Hk & Hl & V2 & S2 & D2)
        end.
        { lia. }
        { lia. }
        { cbn [overall]. unfold probes_of_run.
          replace (a + 1 =? 0) with false by (symmetry; apply Z.eqb_neq; lia).
          reflexivity. }
        exists final, n, w2. split; [exact E2|]. split; [lia|]. split; [exact Hf|].
        split; [|split; [exact Hl|]].
        -- intros k Hk'. destruct (Z.eq_dec k a) as [->|Hne].
           ++ rewrite <- Hov. destruct (overall report); try discriminate Es. reflexivity.
           ++ apply Hk. lia.
        -- replace (Z.to_nat (n - a)) with (S (Z.to_nat (n - (a + 1)))) by lia.
           split; [|split].
           ++ rewrite V2. rewrite (settled_view_of_updater_view _ _ V1). reflexivity.
           ++ rewrite S2, S1. rewrite started_add_log.
              match goal with
              | |- context [is_start ?line] => change (is_start line) with false
              end.
              cbv iota. rewrite started_set_updateProgress. lia.
           ++ rewrite D2, D1. cbn [rerun_rows mail_diagnostics add_log set_updateProgress].
              unfold run_rows. rewrite <- app_assoc. reflexivity.
      * apply Stop; [exact Hov|]. intros. lia.
    + apply Stop; [exact Hov|]. intros _ Herr. rewrite Herr in Es. discriminate Es.
Qed.

(** A cycle that reaches the repair loop, with the diagnostics runs that
    it makes: the run with the comparison and the re-runs of the loop, each
    of which shows once in the log and adds its rows. *)
Lemma cycle_run_full inp f :
  pending_of inp <> [] ->
  queue_pause inp = None ->
  queue_resume_after_install inp = None ->
  (exists rows, previous_query (diagnostics_first inp) = Ret rows) ->
  exists reruns f',
    0 <= reruns <= 3 /\
    (forall k, 0 <= k < reruns -> probed_overall (probes_of_run inp k) = Error) /\
    (reruns < 3 -> probed_overall (probes_of_run inp reruns) <> Error) /\
    cycle inp f =
      (Ret {| results := (f_results f ++ map (installUpdate inp) (pending_of inp))%list;
              diagnosticsStatus :=
                status_string (probed_overall (probes_of_run inp reruns)) |}, f') /\
    p_status (updateProgress (world f')) =
      match probed_overall (probes_of_run inp reruns) with
      | Ok => Done
      | Warning | Error => Failed
      end /\
    diagnostics_started (world f')
    = (diagnostics_started (world f) + 1 + Z.to_nat reruns)%nat /\
    mail_diagnostics (world f') =
      (mail_diagnostics (world f) ++ run_rows (diagnostics_first inp)
         ++ rerun_rows inp 1 (Z.to_nat reruns))%list.
Proof.
  intros Hpending Hpause Hresume [rows Hprev].
  unfold cycle. fold (pending_of inp).
  rewrite (bind_Ret (inWorld_run (setProgress_run _ _ _ _ _))).
  destruct (pending_of inp) as [|check rest] eqn:Ep; [congruence|].
  cbn [length Nat.eqb].
  rewrite (bind_Ret (inWorld_run (setProgress_run _ _ _ _ _))).
  rewrite (bind_Ret (inWorld_run (enterMaintenanceMode_run _ _ Hpause))).
  match goal with
  | |- context [bind (installPending inp ?p ?s) _ ?g] =>
      pose proof (started_installPending inp p s g) as S1;
      destruct (installPending_full inp p s g)
        as (f1 & E1 & R1 & _ & _ & _ & _ & D1)
  end.
  rewrite E1 in S1. cbn [snd world] in S1.
  assert (S1' : diagnostics_started (world f1) = diagnostics_started (world f))
    by (rewrite S1; not_a_start).
  clear S1.
  cbn [f_results world mail_diagnostics add_log set_updateProgress set_queuePaused
         set_maintenanceMode] in R1, D1.
  rewrite (bind_Ret E1).
  rewrite (bind_Ret (inWorld_run (setProgress_run _ _ _ _ _))).
  rewrite Hresume.
  rewrite (bind_Ret (inWorld_run (exitMaintenanceMode_run _))).
  match goal with
  | |- context [bind (inWorld (runFullDiagnostics true ?p)) _ ?g] =>
      pose proof (started_runFullDiagnostics true p (world g)) as S2;
      destruct (runFullDiagnostics_full true p (world g)) as (w2 & E2 & _ & D2)
  end.
  rewrite E2 in S2. cbn [snd world] in S2.
  assert (S2' : diagnostics_started w2 = S (diagnostics_started (world f)))
    by (rewrite S2; f_equal; rewrite <- S1'; not_a_start).
  clear S2.
  cbn [world mail_diagnostics add_log set_updateProgress set_queuePaused
         set_maintenanceMode] in D2.
  rewrite Hprev in E2.
  rewrite (bind_Ret (inWorld_run E2)).
  match goal with
  | |- context [bind (inWorld (repairLoop 3 inp 0 ?r)) _ ?g] =>
      destruct (repairLoop_full inp 3 0 r (world g))
        as (final & n & w3 & E3 & Hn & Hf & Hk & Hl & _ & S3 & D3)
  end.
  { lia. }
  { cbn. lia. }
  { reflexivity. }
  cbn [world] in S3, D3. rewrite Z.sub_0_r in S3, D3. cbn [Z.add] in D3.
  rewrite (bind_Ret (inWorld_run E3)).
  cbn [fst]. rewrite Hf.
  rewrite (bind_Ret (inWorld_run (setProgress_run _ _ _ _ _))).
  exists n. eexists. split; [lia|]. split; [exact Hk|]. split; [rewrite <- Hf; exact Hl|].
  split; [unfold returned, bind, gets, ret; cbn [f_results]; rewrite R1; reflexivity|].
  cbn [world updateProgress add_log set_updateProgress p_status mail_diagnostics].
  split; [destruct (probed_overall (probes_of_run inp n)); reflexivity|].
  split.
  - rewrite started_add_log.
    match goal with
    | |- context [is_start ?line] => change (is_start line) with false
    end.
    cbv iota. rewrite started_set_updateProgress, S3, S2'. lia.
  - rewrite D3, D2, D1. unfold run_rows. rewrite <- app_assoc. reflexivity.
Qed.

(** C2, as the code has it: in a cycle that reaches the repair loop, the
    loop re-runs the diagnostics at most three times, as long as the
    overall status is error; the cycle ends done when the overall status of
    the last run is ok, and failed when it is a warning or an error.  An
    error at the end means that all three re-runs were used.  [reruns] is
    the value of [repairAttempts] when the loop is left, and it is the
    number of the re-runs that were made: the loop starts that many
    diagnostics runs, as the log shows, and adds the rows of exactly the
    re-runs 1 to [reruns]; the whole cycle makes one run more, the one with
    the comparison. *)
Theorem terminal_status_after_repair_loop inp w :
  isUpdating w = false ->
  pending_of inp <> [] ->
  queue_pause inp = None ->
  queue_resume_after_install inp = None ->
  (exists rows, previous_query (diagnostics_first inp) = Ret rows) ->
  exists reruns,
    0 <= reruns <= 3 /\
    (forall k, 0 <= k < reruns -> probed_overall (probes_of_run inp k) = Error) /\
    (forall first w1,
        overall first = probed_overall (diagnostics_first inp) ->
        exists final w2,
          repairLoop 3 inp 0 first w1 = (Ret (final, reruns), w2) /\
          overall final = probed_overall (probes_of_run inp reruns) /\
          diagnostics_started w2 = (diagnostics_started w1 + Z.to_nat reruns)%nat /\
          mail_diagnostics w2 =
            (mail_diagnostics w1 ++ rerun_rows inp 1 (Z.to_nat reruns))%list) /\
    let final := probed_overall (probes_of_run inp reruns) in
    (final = Error -> reruns = 3) /\
    fst (checkAndInstallAll inp w) =
      Ret {| results := map (installUpdate inp) (pending_of inp);
             diagnosticsStatus := status_string final |} /\
    p_status (updateProgress (snd (checkAndInstallAll inp w))) =
      match final with
      | Ok => Done
      | Warning | Error => Failed
      end /\
    diagnostics_started (snd (checkAndInstallAll inp w))
    = (diagnostics_started w + 1 + Z.to_nat reruns)%nat /\
    mail_diagnostics (snd (checkAndInstallAll inp w)) =
      (mail_diagnostics w ++ run_rows (diagnostics_first inp)
         ++ rerun_rows inp 1 (Z.to_nat reruns))%list.
Proof.
  intros Hidle Hpending Hpause Hresume Hprev.
  destruct (cycle_run_full inp {| f_results := []; world := set_isUpdating true w |}
              Hpending Hpause Hresume Hprev)
    as (reruns & f' & Hn & Hk & Hl & E & P & S & D).
  assert (Erun : checkAndInstallAll inp w =
                   (Ret {| results := map (installUpdate inp) (pending_of inp);
                           diagnosticsStatus :=
                             status_string (probed_overall (probes_of_run inp reruns)) |},
                    set_isUpdating false (world f'))).
  { unfold checkAndInstallAll, bind, gets, modify. rewrite Hidle.
    unfold with_results, try_finally, try_catch. rewrite E. reflexivity. }
  rewrite Erun. exists reruns. split; [exact Hn|]. split; [exact Hk|].
  split; [|cbv zeta; split; [|split; [|split; [|split]]]].
  - intros first w1 Hfirst.
    destruct (repairLoop_full inp 3 0 first w1)
      as (final & n & w2 & E2 & Hn2 & Hf2 & Hk2 & Hl2 & _ & S2 & D2);
      [lia|cbn; lia|exact Hfirst|].
    assert (n = reruns) as ->.
    { apply (rerun_count_unique (fun k => probed_overall (probes_of_run inp k)));
        try assumption; try lia.
      rewrite <- Hf2. exact Hl2. }
    rewrite Z.sub_0_r in S2, D2. cbn [Z.add] in D2.
    exists final, w2. repeat split; assumption.
  - intros Herr. destruct (Z.eq_dec reruns 3) as [|Hne]; [assumption|].
    exfalso. apply Hl; [lia|exact Herr].
  - reflexivity.
  - exact P.
  - cbn [snd]. rewrite started_set_isUpdating. exact S.
  - cbn [snd world mail_diagnostics set_isUpdating] in *. exact D.
Qed.

Lemma terminal_status_after_repair_loop_witness :
  fst (checkAndInstallAll smooth_update initial_world) =
    Ret {| results := map (installUpdate smooth_update) (pending_of smooth_update);
           diagnosticsStatus := "ok" |} /\
  p_status (updateProgress (snd (checkAndInstallAll smooth_update initial_world)))
  = Done.
Proof.
  destruct (terminal_status_after_repair_loop smooth_update initial_world)
    as (reruns & _ & _ & _ & _ & R & P & _).
  - reflexivity.
  - discriminate.
  - reflexivity.
  - reflexivity.
  - exists []. reflexivity.
  - rewrite R, P. unfold probes_of_run.
    destruct (reruns =? 0); split; reflexivity.
Defined.
